(** * docker-build-push: the action's orchestration, embedded and verified

    The action drives the [docker] command line through [@actions/exec].
    Every function of the repository is an [async] function that spawns
    subprocesses, writes to the action log and either returns or throws.
    The embedding below keeps that shape: a computation is a function from
    the state of the world to a result (a value or a thrown error) and the
    next state of the world.  What the outside world answers (exit codes of
    subprocesses, the file system, the action's inputs) is a [Host]. *)

From Stdlib Require Import String Ascii List ZArith Bool Lia DecimalString.
Import ListNotations.
Open Scope string_scope.

(** ** JavaScript strings

    A string is the sequence of the UTF-8 bytes of the JavaScript string.
    White space, for [trim] and for the regular expression [\s], is the set
    of code points of the language: U+0009 to U+000D, U+0020, U+00A0,
    U+1680, U+2000 to U+200A, U+2028, U+2029, U+202F, U+205F, U+3000 and
    U+FEFF.  In UTF-8 they take one, two or three bytes. *)

Module Js.

(** U+0009 to U+000D and U+0020 *)
Definition space1 (a : ascii) : bool :=
  let n := nat_of_ascii a in
  ((9 <=? n) && (n <=? 13))%nat || (n =? 32)%nat.

(** U+00A0, the bytes C2 A0 *)
Definition space2 (a b : ascii) : bool :=
  ((nat_of_ascii a =? 194) && (nat_of_ascii b =? 160))%nat.

(** U+1680 (E1 9A 80), U+2000 to U+200A (E2 80 80 to E2 80 8A), U+2028,
    U+2029, U+202F (E2 80 A8, A9, AF), U+205F (E2 81 9F), U+3000
    (E3 80 80) and U+FEFF (EF BB BF) *)
Definition space3 (a b c : ascii) : bool :=
  let x := nat_of_ascii a in
  let y := nat_of_ascii b in
  let z := nat_of_ascii c in
  (((x =? 225) && (y =? 154) && (z =? 128))
   || ((x =? 226) && (y =? 128) &&
       (((128 <=? z) && (z <=? 138)) || (z =? 168) || (z =? 169)
        || (z =? 175)))
   || ((x =? 226) && (y =? 129) && (z =? 159))
   || ((x =? 227) && (y =? 128) && (z =? 128))
   || ((x =? 239) && (y =? 187) && (z =? 191)))%nat.

(** The rest of [s] after the white-space character [s] starts with, if
    it starts with one. *)
Definition space_prefix (s : string) : option string :=
  match s with
  | String a s1 =>
      if space1 a then Some s1
      else
        match s1 with
        | String b s2 =>
            if space2 a b then Some s2
            else
              match s2 with
              | String c s3 => if space3 a b c then Some s3 else None
              | EmptyString => None
              end
        | EmptyString => None
        end
  | EmptyString => None
  end.

(** [s.trimStart()] *)
Fixpoint trimStart (s : string) : string :=
  match s with
  | String a s1 =>
      if space1 a then trimStart s1
      else
        match s1 with
        | String b s2 =>
            if space2 a b then trimStart s2
            else
              match s2 with
              | String c s3 => if space3 a b c then trimStart s3 else s
              | EmptyString => s
              end
        | EmptyString => s
        end
  | EmptyString => EmptyString
  end.

(** [s.trimEnd()]: the string is cut where only white space is left. *)
Fixpoint trimEnd (s : string) : string :=
  match s with
  | EmptyString => EmptyString
  | String a s1 =>
      match trimStart s with
      | EmptyString => EmptyString
      | String _ _ => String a (trimEnd s1)
      end
  end.

(** [s.trim()] *)
Definition trim (s : string) : string := trimEnd (trimStart s).

(** [s.split(/\s+/)]: the pieces of [s] between maximal runs of white
    space.  [piece] is the piece being read, [in_sep] tells that the
    previous character belonged to a separator.  A string that holds no
    separator, the empty string included, is returned as its only piece. *)
Fixpoint split_from (piece : string) (in_sep : bool) (s : string)
  : list string :=
  match s with
  | EmptyString => [piece]
  | String a s1 =>
      if space1 a
      then if in_sep
           then split_from piece true s1
           else piece :: split_from EmptyString true s1
      else
        match s1 with
        | String b s2 =>
            if space2 a b
            then if in_sep
                 then split_from piece true s2
                 else piece :: split_from EmptyString true s2
            else
              match s2 with
              | String c s3 =>
                  if space3 a b c
                  then if in_sep
                       then split_from piece true s3
                       else piece :: split_from EmptyString true s3
                  else split_from (piece ++ String a EmptyString) false s1
              | EmptyString =>
                  split_from (piece ++ String a EmptyString) false s1
              end
        | EmptyString => split_from (piece ++ String a EmptyString) false s1
        end
  end.

Definition split_ws (s : string) : list string :=
  split_from EmptyString false s.

(** [s.toLowerCase()], on ASCII letters *)
Definition lower (c : ascii) : ascii :=
  let n := nat_of_ascii c in
  if ((65 <=? n) && (n <=? 90))%nat then ascii_of_nat (n + 32) else c.

Fixpoint toLowerCase (s : string) : string :=
  match s with
  | EmptyString => EmptyString
  | String c s' => String (lower c) (toLowerCase s')
  end.

(** A string is falsy exactly when it is empty. *)
Definition truthy (s : string) : bool :=
  match s with EmptyString => false | _ => true end.

(** [a || b] on strings *)
Definition or_else (a b : string) : string := if truthy a then a else b.

(** [o || b] where [o] may be [undefined] *)
Definition opt_or (o : option string) (b : string) : string :=
  match o with
  | Some a => or_else a b
  | None => b
  end.


(** Thrown values are [Error] objects; an error is its message.
    [`${error}`] and [String(error)] print it as [Error: message]. *)
Definition error := string.
Definition error_to_string (e : error) : string := "Error: " ++ e.

Definition bool_to_string (b : bool) : string :=
  if b then "true" else "false".

End Js.

(** ** The world: subprocesses, log, outputs *)

(** One call of [exec.exec(commandLine, args, options)]. *)
Record Invocation := mkInvocation {
  cmd : string;
  argv : list string;
  input : option string;           (* options.input: bytes fed to stdin *)
  ignoreReturnCode : bool;
  silent : bool;
  env : option (list (string * string))
}.

(** How a spawned process ends. *)
Inductive Outcome :=
| Exited (code : Z)
| SpawnError (msg : string).

Inductive LogLine :=
| Info (msg : string)
| Warning (msg : string).

Record World := mkWorld {
  trace : list Invocation;              (* subprocesses spawned, oldest first *)
  log : list LogLine;                   (* core.info / core.warning *)
  outputs : list (string * string);     (* core.setOutput *)
  files : list (string * string);       (* fs.appendFileSync: path, data *)
  failures : list string                (* core.setFailed *)
}.

Definition initial : World := mkWorld [] [] [] [] [].

(** What the environment of the action decides. *)
Record Host := mkHost {
  (* the end of a process, given the processes spawned before it *)
  spawn : list Invocation -> Invocation -> Outcome;
  (* message of the error exec.exec rejects with on a non-zero exit code *)
  exit_failure : string -> Z -> string;
  existsSync : string -> bool;
  path_join : string -> string -> string;
  path_resolve : string -> string;
  getInput : string -> string;
  (* process.env: a variable is bound to a string or to undefined *)
  process_env : list (string * option string);
  (* fs.appendFileSync on a path: the error it throws, if any; the state
     of the file system does not change while the action runs, so that it
     does not depend on the data *)
  append_error : string -> option string;
  (* the text core.setOutput writes for a name and a value: the two, held
     between a delimiter the toolkit draws at random *)
  key_value_message : string -> string -> string
}.

(** ** Computations that may throw *)

Inductive Res (A : Type) :=
| Ok (a : A)
| Throw (e : Js.error).
Arguments Ok {A} a.
Arguments Throw {A} e.

Definition M (A : Type) : Type := World -> Res A * World.

Definition ret {A} (a : A) : M A := fun w => (Ok a, w).

Definition throw {A} (e : Js.error) : M A := fun w => (Throw e, w).

Definition bind {A B} (m : M A) (k : A -> M B) : M B :=
  fun w =>
    match m w with
    | (Ok a, w') => k a w'
    | (Throw e, w') => (Throw e, w')
    end.

(** [try { m } catch (error) { handler error }] *)
Definition try_catch {A} (m : M A) (handler : Js.error -> M A) : M A :=
  fun w =>
    match m w with
    | (Ok a, w') => (Ok a, w')
    | (Throw e, w') => handler e w'
    end.

Declare Scope js_scope.
Delimit Scope js_scope with js.
Notation "'let*' x ':=' m 'in' k" := (bind m (fun x => k))
  (at level 61, x name, m at next level, right associativity) : js_scope.
Notation "m ';;' k" := (bind m (fun _ => k))
  (at level 61, right associativity) : js_scope.
Open Scope js_scope.

(** ** The toolkit: @actions/core, @actions/exec, fs *)

(** [process.env.NAME] *)
Fixpoint env_lookup (vars : list (string * option string)) (name : string)
  : option string :=
  match vars with
  | [] => None
  | (k, v) :: rest => if String.eqb k name then v else env_lookup rest name
  end.

(** The end of a line, [os.EOL] *)
Definition nl : string := String (ascii_of_nat 10) EmptyString.

(** The file the outputs go to: [process.env.GITHUB_OUTPUT] when it is set
    and not empty. *)
Definition output_file (h : Host) : option string :=
  match env_lookup (process_env h) "GITHUB_OUTPUT" with
  | Some file => if Js.truthy file then Some file else None
  | None => None
  end.

Definition logged (l : LogLine) (w : World) : World :=
  mkWorld (trace w) (log w ++ [l]) (outputs w) (files w) (failures w).

Definition reported (msg : string) (w : World) : World :=
  mkWorld (trace w) (log w) (outputs w) (files w) (failures w ++ [msg]).

Module core.

Definition info (msg : string) : M unit :=
  fun w => (Ok tt, logged (Info msg) w).

Definition warning (msg : string) : M unit :=
  fun w => (Ok tt, logged (Warning msg) w).

(** [core.setOutput] of @actions/core, which is not part of the
    repository.  When [GITHUB_OUTPUT] names a file, the output is appended
    to that file: the call throws when the file does not exist, and with
    the error of the write when the file cannot be written.  Otherwise the
    output goes to the runner as a command on the standard output, which
    does not fail.  [outputs] keeps the outputs that were set. *)
Definition setOutput (h : Host) (name value : string) : M unit :=
  fun w =>
    match output_file h with
    | Some file =>
        if existsSync h file
        then match append_error h file with
             | Some e => (Throw e, w)
             | None =>
                 (Ok tt,
                  mkWorld (trace w) (log w) (outputs w ++ [(name, value)])
                          (files w ++
                             [(file, key_value_message h name value ++ nl)])
                          (failures w))
             end
        else (Throw ("Missing file at path: " ++ file), w)
    | None =>
        (Ok tt, mkWorld (trace w) (log w) (outputs w ++ [(name, value)])
                        (files w) (failures w))
    end.

Definition setFailed (msg : string) : M unit :=
  fun w => (Ok tt, reported msg w).

End core.

Definition spawned (i : Invocation) (w : World) : World :=
  mkWorld (trace w ++ [i]) (log w) (outputs w) (files w) (failures w).

Module exec.

(** [exec.exec]: spawns the process and resolves to its exit code.  It
    rejects when the process cannot be run, and when the exit code is not
    zero unless [ignoreReturnCode] is set. *)
Definition exec (h : Host) (i : Invocation) : M Z :=
  fun w =>
    let w' := spawned i w in
    match spawn h (trace w) i with
    | Exited code =>
        if (code =? 0)%Z || ignoreReturnCode i
        then (Ok code, w')
        else (Throw (exit_failure h (cmd i) code), w')
    | SpawnError msg => (Throw msg, w')
    end.

End exec.

Module fs.

Definition appendFileSync (h : Host) (path data : string) : M unit :=
  fun w =>
    match append_error h path with
    | Some e => (Throw e, w)
    | None => (Ok tt, mkWorld (trace w) (log w) (outputs w)
                              (files w ++ [(path, data)]) (failures w))
    end.

End fs.

(** [Object.entries(process.env).filter(([, value]) => value !== undefined)] *)
Fixpoint defined_entries (vars : list (string * option string))
  : list (string * string) :=
  match vars with
  | [] => []
  | (k, Some v) :: rest => (k, v) :: defined_entries rest
  | (_, None) :: rest => defined_entries rest
  end.

(** [if (cond) throw ...] and [if (cond) { ... }] without an else branch *)
Definition when (cond : bool) (m : M unit) : M unit :=
  if cond then m else ret tt.

(** [docker args] with default options *)
Definition docker_cmd (args : list string) : Invocation :=
  mkInvocation "docker" args None false false None.

(** ** check-image-exists.ts *)

Definition manifest_inspect (fullImageName : string) : Invocation :=
  mkInvocation "docker" ["manifest"; "inspect"; fullImageName]
               None true true None.

Definition checkImageExists (h : Host)
  (registryUrl imageName version : string) : M bool :=
  try_catch
    (let fullImageName := registryUrl ++ "/" ++ imageName ++ ":" ++ version in
     let* exitCode := exec.exec h (manifest_inspect fullImageName) in
     let exists_ := (exitCode =? 0)%Z in
     core.info ("📦 Image " ++ fullImageName ++ " " ++
                (if exists_ then "exists" else "does not exist"));;
     ret exists_)
    (fun error =>
       core.info ("❌ Error checking image existence: " ++
                  Js.error_to_string error);;
       ret false).

(** ** ensure-docker-engine.ts *)

Definition docker_version : Invocation :=
  mkInvocation "docker" ["--version"] None false true None.

Definition ensureDockerEngine (h : Host) : M unit :=
  try_catch
    (exec.exec h docker_version;;
     core.info "✅ Docker engine is available and ready")
    (fun error =>
       throw ("❌ Docker is not available. Please ensure Docker is installed and running. Error: "
              ++ Js.error_to_string error)).

(** ** registry-login.ts *)

Definition docker_login (registryUrl username password : string)
  : Invocation :=
  mkInvocation "docker"
               ["login"; registryUrl; "-u"; username; "--password-stdin"]
               (Some password) false true None.

Definition registryLogin (h : Host)
  (registryUrl username password : string) : M unit :=
  try_catch
    (exec.exec h (docker_login registryUrl username password);;
     core.info ("✅ Successfully logged into registry: " ++ registryUrl))
    (fun error =>
       throw ("❌ Failed to login to registry: " ++ Js.error_to_string error)).

(** ** build.ts, the revision that runs [docker build] *)

Module BuildTs.

Definition build (h : Host)
  (projectPath dockerfileName imageName version : string) : M unit :=
  try_catch
    (let dockerfilePath := path_join h projectPath dockerfileName in
     when (negb (existsSync h dockerfilePath))
          (throw ("❌ Dockerfile not found at: " ++ dockerfilePath));;
     let fullImageName := imageName ++ ":" ++ version in
     exec.exec h (docker_cmd ["build"; "-t"; fullImageName;
                              "-f"; dockerfilePath; projectPath]);;
     core.info ("✅ Successfully built: " ++ fullImageName))
    (fun error => throw ("❌ Failed to build: " ++ Js.error_to_string error)).

End BuildTs.

(** ** build.ts, the revision that runs [docker buildx build --push] *)

Module BuildxTs.

Definition pull_latest (registryUrl imageName : string) : Invocation :=
  docker_cmd ["pull"; registryUrl ++ "/" ++ imageName ++ ":latest"].

Definition buildx_argv
  (registryUrl fullImageName dockerfilePath projectPath args : string)
  : list string :=
  ["buildx"; "build"; "-t"; registryUrl ++ "/" ++ fullImageName;
   "-f"; dockerfilePath; projectPath]
    ++ Js.split_ws (Js.trim args)
    ++ ["--push"].

Definition buildx_build (h : Host)
  (registryUrl fullImageName dockerfilePath projectPath args : string)
  : Invocation :=
  mkInvocation "docker"
    (buildx_argv registryUrl fullImageName dockerfilePath projectPath args)
    None false false (Some (defined_entries (process_env h))).

Definition build (h : Host)
  (projectPath dockerfileName imageName version registryUrl args : string)
  (pullLatest : bool) : M unit :=
  try_catch
    (let dockerfilePath := path_resolve h dockerfileName in
     when (negb (existsSync h dockerfilePath))
          (throw ("❌ Dockerfile not found at: " ++ dockerfilePath));;
     let fullImageName := imageName ++ ":" ++ version in
     when pullLatest
          (try_catch
             (exec.exec h (pull_latest registryUrl imageName);; ret tt)
             (fun error =>
                core.warning ("⚠️ Failed to pull " ++ registryUrl ++ "/"
                              ++ imageName ++ ":latest: "
                              ++ Js.error_to_string error)));;
     exec.exec h (buildx_build h registryUrl fullImageName dockerfilePath
                               projectPath args);;
     core.info ("✅ Successfully built: " ++ fullImageName))
    (fun error => throw ("❌ Failed to build: " ++ Js.error_to_string error)).

End BuildxTs.

(** ** push.ts, the revision that pushes the versioned reference only *)

Module PushVersionTs.

Definition push (h : Host) (registryUrl imageName version : string)
  : M unit :=
  let localImageName := imageName ++ ":" ++ version in
  let remoteImageName :=
    registryUrl ++ "/" ++ imageName ++ ":" ++ version in
  try_catch
    (exec.exec h (docker_cmd ["tag"; localImageName; remoteImageName]);;
     exec.exec h (docker_cmd ["push"; remoteImageName]);;
     core.info ("✅ Successfully pushed: " ++ remoteImageName))
    (fun error =>
       throw ("❌ Failed to push " ++ remoteImageName ++ ": "
              ++ Js.error_to_string error)).

End PushVersionTs.

(** ** push.ts, the revision that also publishes [latest] *)

Module PushTs.

Definition push (h : Host) (registryUrl imageName version : string)
  : M unit :=
  let localImageName := imageName ++ ":" ++ version in
  let remoteImageName :=
    registryUrl ++ "/" ++ imageName ++ ":" ++ version in
  let latestImageName := registryUrl ++ "/" ++ imageName ++ ":latest" in
  try_catch
    (exec.exec h (docker_cmd ["tag"; localImageName; remoteImageName]);;
     exec.exec h (docker_cmd ["push"; remoteImageName]);;
     core.info ("✅ Successfully pushed: " ++ remoteImageName);;
     exec.exec h (docker_cmd ["tag"; localImageName; latestImageName]);;
     exec.exec h (docker_cmd ["push"; latestImageName]);;
     core.info ("✅ Successfully pushed as latest: " ++ latestImageName))
    (fun error =>
       throw ("❌ Failed to push " ++ remoteImageName ++ ": "
              ++ Js.error_to_string error)).

End PushTs.

(** ** index.ts *)

Record Input := mkInput {
  projectPath : string;
  imageName : string;
  dockerfileName : string;
  version : string;
  registryUrl : string;
  registryUsername : string;
  registryPassword : string;
  args : string;
  pullLatest : bool
}.

Record Output := mkOutput {
  image : string;
  tag : string;
  href : string;
  skipped : bool
}.

(** The call [build(projectPath, dockerfileName, imageName, version, args,
    pullLatest)] of index.ts: the build module as the orchestrator sees it. *)
Definition Builder : Type :=
  string -> string -> string -> string -> string -> bool -> M unit.

(** The call [push(registryUrl, imageName, version)] of index.ts. *)
Definition Publisher : Type := string -> string -> string -> M unit.

Section Orchestrator.

Variable h : Host.
(** index.ts imports [build] and [push] from their modules; the
    repository holds two revisions of each. *)
Variable build : Builder.
Variable push : Publisher.

(** [core.getInput(name) || process.env[variable] || fallback] *)
Definition input_or_env (name variable fallback : string) : string :=
  Js.or_else (getInput h name)
             (Js.opt_or (env_lookup (process_env h) variable) fallback).

Definition read_input : Input :=
  {| projectPath := input_or_env "project-path" "INPUT_PROJECT_PATH" "";
     imageName := input_or_env "image-name" "INPUT_IMAGE_NAME" "";
     dockerfileName :=
       input_or_env "dockerfile-name" "INPUT_DOCKERFILE_NAME" "Dockerfile";
     version := input_or_env "version" "INPUT_VERSION" "";
     registryUrl := input_or_env "registry-url" "INPUT_REGISTRY_URL" "";
     registryUsername :=
       input_or_env "registry-username" "INPUT_REGISTRY_USERNAME" "";
     registryPassword :=
       input_or_env "registry-password" "INPUT_REGISTRY_PASSWORD" "";
     args := input_or_env "args" "INPUT_ARGS" "";
     pullLatest :=
       String.eqb
         (Js.toLowerCase
            (input_or_env "pull-latest" "INPUT_PULL_LATEST" "true"))
         "true" |}.

(** Main function to handle Docker build and push *)
Definition docker (inputs : Input) : M Output :=
  try_catch
    (let meta_image := imageName inputs in
     let meta_tag := version inputs in
     let meta_href :=
       registryUrl inputs ++ "/" ++ imageName inputs ++ ":"
                   ++ version inputs in
     ensureDockerEngine h;;
     registryLogin h (registryUrl inputs) (registryUsername inputs)
                   (registryPassword inputs);;
     let* imageExists :=
       checkImageExists h (registryUrl inputs) (imageName inputs)
                        (version inputs) in
     if imageExists : bool
     then
       core.info "⏭️  Image already exists, skipping build and push";;
       ret (mkOutput meta_image meta_tag meta_href true)
     else
       build (projectPath inputs) (dockerfileName inputs)
             (imageName inputs) (version inputs) (args inputs)
             (pullLatest inputs);;
       push (registryUrl inputs) (imageName inputs) (version inputs);;
       core.info "✅ Docker push process completed successfully";;
       ret (mkOutput meta_image meta_tag meta_href false))
    (fun error => throw ("❌ Docker push failed: " ++ error)).

(** The checks of [run] on the required inputs, in the order of the
    source. *)
Definition require_inputs (input : Input) : M unit :=
  when (negb (Js.truthy (projectPath input)))
       (throw "project-path is required");;
  when (negb (Js.truthy (imageName input)))
       (throw "image-name is required");;
  when (negb (Js.truthy (version input)))
       (throw "version is required");;
  when (negb (Js.truthy (registryUrl input)))
       (throw "registry-url is required");;
  when (negb (Js.truthy (registryUsername input)))
       (throw "registry-username is required");;
  when (negb (Js.truthy (registryPassword input)))
       (throw "registry-password is required").

(** The body of [run] once the inputs are read: the checks, the
    orchestrator, the outputs, and the handler of whatever was thrown. *)
Definition run_with (input : Input) : M unit :=
  try_catch
    (require_inputs input;;
     let* result := docker input in
     core.setOutput h "image" (image result);;
     core.setOutput h "tag" (tag result);;
     core.setOutput h "href" (href result);;
     core.setOutput h "skipped" (Js.bool_to_string (skipped result));;
     match env_lookup (process_env h) "GITHUB_OUTPUT" with
     | Some file =>
         when (Js.truthy file)
              (fs.appendFileSync h file ("image=" ++ image result ++ nl);;
               fs.appendFileSync h file ("tag=" ++ tag result ++ nl);;
               fs.appendFileSync h file ("href=" ++ href result ++ nl);;
               fs.appendFileSync h file
                 ("skipped=" ++ Js.bool_to_string (skipped result) ++ nl))
     | None => ret tt
     end)
    (fun error => core.setFailed ("❌ Action failed: " ++ error)).

(** [run]: the entry point of the action. *)
Definition run : M unit := run_with read_input.

End Orchestrator.

(** The build module of build.ts takes the first four arguments of the
    call; JavaScript drops the two others. *)
Definition docker_build (h : Host) : Builder :=
  fun projectPath dockerfileName imageName version _ _ =>
    BuildTs.build h projectPath dockerfileName imageName version.

(** The buildx revision of the build module has seven parameters; the
    call of index.ts binds its six arguments to the first six.  So
    [registryUrl] is the string of the extra build arguments, [args] is
    the boolean [pullLatest] of the request, and the parameter [pullLatest]
    takes its default, [true].  A boolean has no [trim]: after the
    Dockerfile check and the pull, the evaluation of [args.trim()], among
    the arguments of [exec.exec], throws a [TypeError], and the
    [docker buildx build] process is not spawned.  The catch of [build]
    prints that error under its name. *)
Definition buildx_build_push (h : Host) : Builder :=
  fun projectPath dockerfileName imageName version args (pullLatest : bool) =>
    let registryUrl := args in
    try_catch
      (let dockerfilePath := path_resolve h dockerfileName in
       when (negb (existsSync h dockerfilePath))
            (throw ("❌ Dockerfile not found at: " ++ dockerfilePath));;
       try_catch
         (exec.exec h (BuildxTs.pull_latest registryUrl imageName);; ret tt)
         (fun error =>
            core.warning ("⚠️ Failed to pull " ++ registryUrl ++ "/"
                          ++ imageName ++ ":latest: "
                          ++ Js.error_to_string error)))
      (fun error => throw ("❌ Failed to build: " ++ Js.error_to_string error));;
    throw ("❌ Failed to build: " ++ "TypeError: args.trim is not a function").

(** * Vocabulary of the statements *)

(** ** The revisions of the build and push modules *)

(** The repository holds two revisions of build.ts and two of push.ts. *)
Inductive BuildRevision := DockerBuild | BuildxBuildPush.

Inductive PushRevision := PushVersion | PushVersionAndLatest.

Definition builder_of (h : Host) (rev : BuildRevision) : Builder :=
  match rev with
  | DockerBuild => docker_build h
  | BuildxBuildPush => buildx_build_push h
  end.

Definition publisher_of (h : Host) (rev : PushRevision) : Publisher :=
  match rev with
  | PushVersion => PushVersionTs.push h
  | PushVersionAndLatest => PushTs.push h
  end.

(** The orchestrator and the action over a chosen pair of revisions. *)
Definition orchestrate (h : Host) (b : BuildRevision) (p : PushRevision)
  (inputs : Input) : M Output :=
  docker h (builder_of h b) (publisher_of h p) inputs.

Definition action (h : Host) (b : BuildRevision) (p : PushRevision)
  (input : Input) : M unit :=
  run_with h (builder_of h b) (publisher_of h p) input.

(** ** What a computation does to the world *)

(** [frames m]: [m] may spawn processes and write log lines; it touches
    neither the outputs, nor the output file, nor the failure reports. *)
Definition frames {A} (m : M A) : Prop :=
  forall w r w', m w = (r, w') ->
    outputs w' = outputs w /\ files w' = files w /\ failures w' = failures w.

(** [spawns P m]: every process that [m] spawns satisfies [P]. *)
Definition spawns {A} (P : Invocation -> Prop) (m : M A) : Prop :=
  forall w r w', m w = (r, w') ->
    exists l, trace w' = (trace w ++ l)%list /\ Forall P l.

(** The error [exec.exec] rejects with, if it does. *)
Definition exec_rejection (h : Host) (i : Invocation) (o : Outcome)
  : option Js.error :=
  match o with
  | Exited code =>
      if (code =? 0)%Z || ignoreReturnCode i then None
      else Some (exit_failure h (cmd i) code)
  | SpawnError msg => Some msg
  end.

(** The world after the best-effort pull of the buildx revision. *)
Definition after_pull (h : Host) (reg im : string) (w : World) : World :=
  let pull := BuildxTs.pull_latest reg im in
  match exec_rejection h pull (spawn h (trace w) pull) with
  | None => spawned pull w
  | Some e =>
      logged (Warning ("⚠️ Failed to pull " ++ reg ++ "/" ++ im
                       ++ ":latest: " ++ Js.error_to_string e))
             (spawned pull w)
  end.

(** A sequence of processes in which every one must succeed: they are
    spawned in order, after the processes [t] spawned so far, up to the
    first one that [exec.exec] rejects.  The result is the list of the
    processes spawned and the rejection, if there was one. *)
Fixpoint attempt (h : Host) (t : list Invocation) (steps : list Invocation)
  : list Invocation * option Js.error :=
  match steps with
  | [] => ([], None)
  | i :: rest =>
      match exec_rejection h i (spawn h t i) with
      | Some e => ([i], Some e)
      | None =>
          let (spawned_next, rejection) := attempt h (t ++ [i]) rest in
          (i :: spawned_next, rejection)
      end
  end.

(** The steps of the two revisions of [push]. *)
Definition tag_step (source target : string) : Invocation :=
  docker_cmd ["tag"; source; target].

Definition push_step (target : string) : Invocation :=
  docker_cmd ["push"; target].

Definition version_steps (reg im v : string) : list Invocation :=
  [tag_step (im ++ ":" ++ v) (reg ++ "/" ++ im ++ ":" ++ v);
   push_step (reg ++ "/" ++ im ++ ":" ++ v)].

Definition latest_steps (reg im v : string) : list Invocation :=
  [tag_step (im ++ ":" ++ v) (reg ++ "/" ++ im ++ ":latest");
   push_step (reg ++ "/" ++ im ++ ":latest")].

(** The error of the publisher for a rejection [e] of one of its steps. *)
Definition push_failure (reg im v : string) (e : Js.error) : Js.error :=
  "❌ Failed to push " ++ (reg ++ "/" ++ im ++ ":" ++ v) ++ ": Error: " ++ e.

(** ** Requests, outputs, command lines *)

(** One of the six required inputs is the empty string. *)
Definition missing_required (input : Input) : Prop :=
  projectPath input = "" \/ imageName input = "" \/ version input = "" \/
  registryUrl input = "" \/ registryUsername input = "" \/
  registryPassword input = "".

Definition required_names : list string :=
  ["project-path"; "image-name"; "version"; "registry-url";
   "registry-username"; "registry-password"].

(** The four outputs of a result, as [run] sets them. *)
Definition four_outputs (r : Output) : list (string * string) :=
  [("image", image r); ("tag", tag r); ("href", href r);
   ("skipped", Js.bool_to_string (skipped r))].

(** A build with integrated push: [docker buildx build ... --push]. *)
Definition is_integrated_push (i : Invocation) : bool :=
  match argv i with
  | "buildx" :: "build" :: rest => existsb (String.eqb "--push") rest
  | _ => false
  end.

(** A step of the publisher: [docker tag source target] or
    [docker push target]. *)
Definition is_publisher_step (i : Invocation) : bool :=
  match argv i with
  | ["tag"; _; _] => true
  | ["push"; _] => true
  | _ => false
  end.

(** Every token that a run may put on a command line, computed from the
    fields of the request other than the password. *)
Definition command_line_tokens (h : Host)
  (pp df im v reg user a : string) : list string :=
  ["--version"; "login"; reg; "-u"; user; "--password-stdin";
   "manifest"; "inspect"; reg ++ "/" ++ im ++ ":" ++ v;
   "build"; "-t"; im ++ ":" ++ v; "-f"; path_join h pp df; pp;
   "pull"; a ++ "/" ++ im ++ ":latest";
   "tag"; "push"; reg ++ "/" ++ im ++ ":latest"].

(** A process whose command line is made of the tokens [tokens] and which
    is fed nothing on its standard input, unless it is [login]. *)
Definition discreet (tokens : list string) (login : Invocation)
  (i : Invocation) : Prop :=
  incl (argv i) tokens /\ (input i = None \/ i = login).

(** ** White space in strings *)

(** [s] without its white-space characters *)
Fixpoint without_spaces (s : string) : string :=
  match s with
  | EmptyString => EmptyString
  | String a s1 =>
      if Js.space1 a then without_spaces s1
      else
        match s1 with
        | String b s2 =>
            if Js.space2 a b then without_spaces s2
            else
              match s2 with
              | String c s3 =>
                  if Js.space3 a b c then without_spaces s3
                  else String a (without_spaces s1)
              | EmptyString => String a (without_spaces s1)
              end
        | EmptyString => String a (without_spaces s1)
        end
  end.

(** No white-space character starts anywhere in [s]. *)
Fixpoint space_free (s : string) : bool :=
  match s with
  | EmptyString => true
  | String _ s1 =>
      match Js.space_prefix s with
      | Some _ => false
      | None => space_free s1
      end
  end.

(** [s] is made of white space only. *)
Definition blank (s : string) : bool :=
  match Js.trimStart s with
  | EmptyString => true
  | String _ _ => false
  end.

(** A byte that continues a character of two or three bytes *)
Definition continuation (a : ascii) : bool :=
  ((128 <=? nat_of_ascii a) && (nat_of_ascii a <=? 191))%nat.

(** No white-space character starts within [piece] in [piece ++ s]. *)
Fixpoint clear_before (piece s : string) : bool :=
  match piece with
  | EmptyString => true
  | String _ p =>
      match Js.space_prefix (piece ++ s) with
      | Some _ => false
      | None => clear_before p s
      end
  end.

(** ** Concrete hosts and requests

    The hosts below answer a process by its argument list, join paths with
    a slash and resolve them against [/github/workspace]. *)

Module Demo.

Definition join (a b : string) : string := a ++ "/" ++ b.

Definition resolve (p : string) : string := "/github/workspace/" ++ p.

Definition exit_message (tool : string) (code : Z) : string :=
  "The process '/usr/bin/" ++ tool ++ "' failed with exit code "
    ++ NilZero.string_of_int (Z.to_int code).

Definition same_argv (a b : list string) : bool :=
  if list_eq_dec string_dec a b then true else false.

(** The outcome of a process is looked up by its argument list; a
    process that is not listed exits with code zero. *)
Fixpoint answer (table : list (list string * Outcome)) (i : Invocation)
  : Outcome :=
  match table with
  | [] => Exited 0
  | (a, o) :: rest => if same_argv a (argv i) then o else answer rest i
  end.

Fixpoint lookup (table : list (string * string)) (name : string)
  : string :=
  match table with
  | [] => ""
  | (k, v) :: rest => if String.eqb k name then v else lookup rest name
  end.

Definition host (table : list (list string * Outcome))
  (present : list string) (inputs : list (string * string))
  (vars : list (string * option string)) : Host :=
  {| spawn := fun _ i => answer table i;
     exit_failure := exit_message;
     existsSync := fun p => existsb (String.eqb p) present;
     path_join := join;
     path_resolve := resolve;
     getInput := lookup inputs;
     process_env := vars;
     append_error := fun _ => None;
     key_value_message := fun name value =>
       name ++ "<<ghadelimiter_0" ++ nl ++ value ++ nl ++ "ghadelimiter_0" |}.

Definition request : Input :=
  {| projectPath := "app";
     imageName := "app";
     dockerfileName := "Dockerfile";
     version := "v1";
     registryUrl := "reg.example";
     registryUsername := "ci";
     registryPassword := "s3cret";
     args := "";
     pullLatest := true |}.

End Demo.

Module Scenario.

(** The image is already in the registry. *)
Definition image_present : Host := Demo.host [] ["app/Dockerfile"] [] [].

(** The image is not in the registry, the Dockerfile is in the project
    directory, every other process succeeds. *)
Definition image_absent : Host :=
  Demo.host [(["manifest"; "inspect"; "reg.example/app:v1"], Exited 1)]
            ["app/Dockerfile"; "/tmp/out"] []
            [("GITHUB_OUTPUT", Some "/tmp/out")].

(** As [image_absent], but the file named by [GITHUB_OUTPUT] is not
    there. *)
Definition output_file_missing : Host :=
  Demo.host [(["manifest"; "inspect"; "reg.example/app:v1"], Exited 1)]
            ["app/Dockerfile"] []
            [("GITHUB_OUTPUT", Some "/tmp/out")].

(** The registry has no [latest] image to pull. *)
Definition no_latest : Host :=
  Demo.host [(["pull"; "reg.example/app:latest"], Exited 1)]
            ["/github/workspace/Dockerfile"] [] [].

(** The image is not in the registry and the build fails. *)
Definition build_fails : Host :=
  Demo.host [(["manifest"; "inspect"; "reg.example/app:v1"], Exited 1);
             (["build"; "-t"; "app:v1"; "-f"; "app/Dockerfile"; "app"],
              Exited 2)]
            ["app/Dockerfile"] [] [].


(** A request without project path. *)
Definition no_project_path : Input :=
  {| projectPath := "";
     imageName := "app";
     dockerfileName := "Dockerfile";
     version := "v1";
     registryUrl := "reg.example";
     registryUsername := "ci";
     registryPassword := "s3cret";
     args := "";
     pullLatest := true |}.

End Scenario.

Module Workspace.

(** The working directory holds a Dockerfile, the project directory
    [app] does not. *)
Definition root_only : Host :=
  Demo.host [] ["/github/workspace/Dockerfile"] [] [].

(** The project directory [app] holds the Dockerfile, the working
    directory does not. *)
Definition project_only : Host := Demo.host [] ["app/Dockerfile"] [] [].

End Workspace.

Module Registry.


End Registry.

Module Pipeline.

(** The image is not in the registry yet; every other process
    succeeds.  The Dockerfile is in the working directory. *)
Definition fresh_image : Host :=
  Demo.host [(["manifest"; "inspect"; "reg.example/app:v1"], Exited 1)]
            ["/github/workspace/Dockerfile"; "app/Dockerfile"] [] [].

End Pipeline.

Module Credentials.

Definition host : Host := Demo.host [] [] [] [].

(** A user whose password is the user name. *)
Definition username : string := "admin".
Definition password : string := "admin".

End Credentials.

(** ** Processes of a run, lines of the output file, sources of inputs *)

(** The process of the build step of the docker-build revision. *)
Definition docker_build_process (h : Host) (inputs : Input) : Invocation :=
  docker_cmd ["build"; "-t"; imageName inputs ++ ":" ++ version inputs;
              "-f"; path_join h (projectPath inputs) (dockerfileName inputs);
              projectPath inputs].

(** The processes of the push step of revision [p], when it goes through. *)
Definition publisher_processes (p : PushRevision) (inputs : Input)
  : list Invocation :=
  match p with
  | PushVersion =>
      version_steps (registryUrl inputs) (imageName inputs) (version inputs)
  | PushVersionAndLatest =>
      version_steps (registryUrl inputs) (imageName inputs) (version inputs)
      ++ latest_steps (registryUrl inputs) (imageName inputs) (version inputs)
  end.

(** The processes every run starts with: engine check, login, probe. *)
Definition opening_processes (inputs : Input) : list Invocation :=
  [docker_version;
   docker_login (registryUrl inputs) (registryUsername inputs)
                (registryPassword inputs);
   manifest_inspect (registryUrl inputs ++ "/" ++ imageName inputs ++ ":"
                                 ++ version inputs)].

(** The lines [run] appends to the file named by [GITHUB_OUTPUT]. *)
Definition output_lines (r : Output) : list string :=
  ["image=" ++ image r ++ nl;
   "tag=" ++ tag r ++ nl;
   "href=" ++ href r ++ nl;
   "skipped=" ++ Js.bool_to_string (skipped r) ++ nl].

(** The required inputs: the name of the action input and the environment
    variable read when the input is empty. *)
Definition required_sources : list (string * string) :=
  [("project-path", "INPUT_PROJECT_PATH");
   ("image-name", "INPUT_IMAGE_NAME");
   ("version", "INPUT_VERSION");
   ("registry-url", "INPUT_REGISTRY_URL");
   ("registry-username", "INPUT_REGISTRY_USERNAME");
   ("registry-password", "INPUT_REGISTRY_PASSWORD")].

(** The host provides an input: the action input is not empty, or the
    environment variable is set and not empty. *)
Definition provided (h : Host) (source : string * string) : bool :=
  Js.truthy (getInput h (fst source)) ||
  match env_lookup (process_env h) (snd source) with
  | Some value => Js.truthy value
  | None => false
  end.




(** What stands in the way of the outputs, if anything: the file named by
    [GITHUB_OUTPUT] does not exist, or cannot be written. *)
Definition output_channel_error (h : Host) : option Js.error :=
  match output_file h with
  | Some file =>
      if existsSync h file then append_error h file
      else Some ("Missing file at path: " ++ file)
  | None => None
  end.

(** What a run writes to the output file for a result: the four outputs
    as the toolkit writes them, then the four lines of [run]. *)
Definition output_records (h : Host) (r : Output) : list (string * string) :=
  match output_file h with
  | Some file =>
      map (pair file)
          (map (fun kv => key_value_message h (fst kv) (snd kv) ++ nl)
               (four_outputs r)
           ++ output_lines r)
  | None => []
  end.

(** A letter in either case. *)
Definition either_case (lowercase uppercase c : ascii) : Prop :=
  c = lowercase \/ c = uppercase.

(** ** More concrete hosts *)

Module Cases.

(** No docker on the machine. *)
Definition no_engine : Host :=
  Demo.host [(["--version"], SpawnError "spawn docker ENOENT")] [] [] [].

(** The registry refuses the credentials. *)
Definition login_refused : Host :=
  Demo.host [(["login"; "reg.example"; "-u"; "ci"; "--password-stdin"],
              Exited 1)] [] [] [].

(** The probe cannot be run, the Dockerfile is there, the build fails. *)
Definition probe_broken : Host :=
  Demo.host [(["manifest"; "inspect"; "reg.example/app:v1"],
              SpawnError "network unreachable");
             (["build"; "-t"; "app:v1"; "-f"; "app/Dockerfile"; "app"],
              Exited 2)]
            ["app/Dockerfile"] [] [].

(** The inputs come from the environment; the output file cannot be
    written. *)
Definition from_environment : Host :=
  {| spawn := fun _ i =>
       Demo.answer
         [(["manifest"; "inspect"; "reg.example/app:v1"], Exited 1)] i;
     exit_failure := Demo.exit_message;
     existsSync := fun p =>
       String.eqb p "app/Dockerfile" || String.eqb p "/tmp/out";
     path_join := Demo.join;
     path_resolve := Demo.resolve;
     getInput := Demo.lookup [("image-name", "app"); ("version", "v1")];
     process_env :=
       [("INPUT_PROJECT_PATH", Some "app");
        ("INPUT_REGISTRY_URL", Some "reg.example");
        ("INPUT_REGISTRY_USERNAME", Some "ci");
        ("INPUT_REGISTRY_PASSWORD", Some "s3cret");
        ("INPUT_PULL_LATEST", Some "TRUE");
        ("GITHUB_OUTPUT", Some "/tmp/out")];
     append_error := fun _ => Some "EACCES: permission denied";
     key_value_message := fun name value =>
       name ++ "<<ghadelimiter_1" ++ nl ++ value ++ nl ++ "ghadelimiter_1" |}.

End Cases.

(** * Properties *)

(** ** Frames and spawned processes of the combinators *)

Create HintDb frame.

Section Combinators.

Context {A B : Type}.

Lemma frames_ret (a : A) : frames (ret a).
Proof. intros w r w' E. inversion E. auto. Qed.

Lemma frames_throw (e : Js.error) : frames (@throw A e).
Proof. intros w r w' E. inversion E. auto. Qed.

Lemma frames_bind (m : M A) (k : A -> M B) :
  frames m -> (forall a, frames (k a)) -> frames (bind m k).
Proof.
  intros Hm Hk w r w' E. unfold bind in E.
  destruct (m w) as [[a | e] w1] eqn:Em.
  - destruct (Hm _ _ _ Em) as (O1 & F1 & X1).
    destruct (Hk a _ _ _ E) as (O2 & F2 & X2).
    repeat split; congruence.
  - inversion E; subst. eauto.
Qed.

Lemma frames_try_catch (m : M A) (handler : Js.error -> M A) :
  frames m -> (forall e, frames (handler e)) -> frames (try_catch m handler).
Proof.
  intros Hm Hh w r w' E. unfold try_catch in E.
  destruct (m w) as [[a | e] w1] eqn:Em.
  - inversion E; subst. eauto.
  - destruct (Hm _ _ _ Em) as (O1 & F1 & X1).
    destruct (Hh e _ _ _ E) as (O2 & F2 & X2).
    repeat split; congruence.
Qed.

Variable P : Invocation -> Prop.

Lemma spawns_ret (a : A) : spawns P (ret a).
Proof.
  intros w r w' E. inversion E; subst. exists []. now rewrite app_nil_r.
Qed.

Lemma spawns_throw (e : Js.error) : spawns P (@throw A e).
Proof.
  intros w r w' E. inversion E; subst. exists []. now rewrite app_nil_r.
Qed.

Lemma spawns_bind (m : M A) (k : A -> M B) :
  spawns P m -> (forall a, spawns P (k a)) -> spawns P (bind m k).
Proof.
  intros Hm Hk w r w' E. unfold bind in E.
  destruct (m w) as [[a | e] w1] eqn:Em.
  - destruct (Hm _ _ _ Em) as (l1 & T1 & F1).
    destruct (Hk a _ _ _ E) as (l2 & T2 & F2).
    exists (l1 ++ l2)%list. split.
    + now rewrite T2, T1, app_assoc.
    + now apply Forall_app.
  - inversion E; subst. eauto.
Qed.

Lemma spawns_try_catch (m : M A) (handler : Js.error -> M A) :
  spawns P m -> (forall e, spawns P (handler e)) ->
  spawns P (try_catch m handler).
Proof.
  intros Hm Hh w r w' E. unfold try_catch in E.
  destruct (m w) as [[a | e] w1] eqn:Em.
  - inversion E; subst. eauto.
  - destruct (Hm _ _ _ Em) as (l1 & T1 & F1).
    destruct (Hh e _ _ _ E) as (l2 & T2 & F2).
    exists (l1 ++ l2)%list. split.
    + now rewrite T2, T1, app_assoc.
    + now apply Forall_app.
Qed.

End Combinators.

Lemma frames_when (c : bool) (m : M unit) : frames m -> frames (when c m).
Proof. destruct c; simpl; auto. intros _. apply frames_ret. Qed.

Lemma spawns_when P (c : bool) (m : M unit) :
  spawns P m -> spawns P (when c m).
Proof. destruct c; simpl; auto. intros _. apply spawns_ret. Qed.

Lemma frames_info msg : frames (core.info msg).
Proof. intros w r w' E. inversion E. auto. Qed.

Lemma frames_warning msg : frames (core.warning msg).
Proof. intros w r w' E. inversion E. auto. Qed.

Lemma spawns_info P msg : spawns P (core.info msg).
Proof. intros w r w' E. inversion E. exists []. now rewrite app_nil_r. Qed.

Lemma spawns_warning P msg : spawns P (core.warning msg).
Proof. intros w r w' E. inversion E. exists []. now rewrite app_nil_r. Qed.

Lemma exec_trace h i w r w' :
  exec.exec h i w = (r, w') -> w' = spawned i w.
Proof.
  unfold exec.exec. intros E.
  destruct (spawn h (trace w) i) as [code | msg];
    [destruct ((code =? 0)%Z || ignoreReturnCode i) |]; now inversion E.
Qed.

Lemma frames_exec h i : frames (exec.exec h i).
Proof. intros w r w' E. apply exec_trace in E. subst. auto. Qed.

Lemma spawns_exec (P : Invocation -> Prop) h i :
  P i -> spawns P (exec.exec h i).
Proof.
  intros Hi w r w' E. apply exec_trace in E. subst.
  exists [i]. auto.
Qed.

#[export] Hint Resolve frames_ret frames_throw frames_bind frames_try_catch
  frames_when frames_info frames_warning frames_exec : frame.
#[export] Hint Resolve spawns_ret spawns_throw spawns_bind spawns_try_catch
  spawns_when spawns_info spawns_warning spawns_exec : frame.

Lemma not_zero_rejected h i o :
  ignoreReturnCode i = false -> o <> Exited 0 ->
  exists e, exec_rejection h i o = Some e.
Proof.
  intros Hi Ho. destruct o as [code | msg]; simpl; eauto.
  rewrite Hi, orb_false_r.
  destruct (code =? 0)%Z eqn:E; eauto.
  apply Z.eqb_eq in E. congruence.
Qed.

(** ** The existence prober *)

Lemma checkImageExists_run h reg im v w :
  let ref := reg ++ "/" ++ im ++ ":" ++ v in
  checkImageExists h reg im v w =
  match spawn h (trace w) (manifest_inspect ref) with
  | Exited code =>
      (Ok (code =? 0)%Z,
       logged (Info ("📦 Image " ++ ref ++ " " ++
                     (if (code =? 0)%Z then "exists" else "does not exist")))
              (spawned (manifest_inspect ref) w))
  | SpawnError msg =>
      (Ok false,
       logged (Info ("❌ Error checking image existence: Error: " ++ msg))
              (spawned (manifest_inspect ref) w))
  end.
Proof.
  unfold checkImageExists, try_catch, bind, exec.exec. simpl.
  destruct (spawn h (trace w) _) as [code | msg]; simpl.
  - now rewrite orb_true_r.
  - reflexivity.
Qed.

(** C3. The existence prober never throws.  It resolves to [true] exactly
    when the [docker manifest inspect] process exits with code zero; in
    every other case (a non-zero exit code, or the process could not be
    run) it resolves to [false], and one diagnostic line has been logged:
    that the image does not exist, or the error met while probing. *)
Theorem checkImageExists_never_throws h reg im v w :
  let ref := reg ++ "/" ++ im ++ ":" ++ v in
  let outcome := spawn h (trace w) (manifest_inspect ref) in
  exists (b : bool) (diagnostic : string),
    checkImageExists h reg im v w =
      (Ok b, logged (Info diagnostic) (spawned (manifest_inspect ref) w)) /\
    (b = true <-> outcome = Exited 0) /\
    (b = false ->
     (exists code, outcome = Exited code /\ code <> 0%Z /\
        diagnostic = "📦 Image " ++ ref ++ " does not exist") \/
     (exists msg, outcome = SpawnError msg /\
        diagnostic = "❌ Error checking image existence: Error: " ++ msg)).
Proof.
  intros ref outcome. subst outcome.
  rewrite checkImageExists_run. fold ref.
  destruct (spawn h (trace w) (manifest_inspect ref)) as [code | msg].
  - destruct (code =? 0)%Z eqn:E.
    + apply Z.eqb_eq in E. subst code.
      do 2 eexists. split; [reflexivity |]. split; [tauto | discriminate].
    + apply Z.eqb_neq in E.
      do 2 eexists. split; [reflexivity |]. split.
      * split; [discriminate | congruence].
      * intros _. left. exists code. auto.
  - do 2 eexists. split; [reflexivity |]. split.
    + split; discriminate.
    + intros _. right. eauto.
Qed.

(** ** Engine check and registry session *)

Lemma ensureDockerEngine_trace h w r w1 :
  ensureDockerEngine h w = (r, w1) ->
  trace w1 = (trace w ++ [docker_version])%list.
Proof.
  unfold ensureDockerEngine, try_catch, bind.
  destruct (exec.exec h docker_version w) as [[c | e] w0] eqn:E;
    apply exec_trace in E; subst; intros H; now inversion H.
Qed.

Lemma registryLogin_trace h reg user pw w r w1 :
  registryLogin h reg user pw w = (r, w1) ->
  trace w1 = (trace w ++ [docker_login reg user pw])%list.
Proof.
  unfold registryLogin, try_catch, bind.
  destruct (exec.exec h (docker_login reg user pw) w) as [[c | e] w0] eqn:E;
    apply exec_trace in E; subst; intros H; now inversion H.
Qed.

Lemma checkImageExists_trace h reg im v w r w1 :
  checkImageExists h reg im v w = (r, w1) ->
  trace w1 =
  (trace w ++ [manifest_inspect (reg ++ "/" ++ im ++ ":" ++ v)])%list.
Proof.
  rewrite checkImageExists_run.
  destruct (spawn h (trace w) _); intros H; now inversion H.
Qed.

(** ** The orchestrator *)

Section OrchestratorFacts.

Variable h : Host.
Variable build : Builder.
Variable push : Publisher.
Variable inputs : Input.

Let ref : string :=
  registryUrl inputs ++ "/" ++ imageName inputs ++ ":" ++ version inputs.

Let login : M unit :=
  registryLogin h (registryUrl inputs) (registryUsername inputs)
                (registryPassword inputs).

Let probe : M bool :=
  checkImageExists h (registryUrl inputs) (imageName inputs)
                   (version inputs).

Let building : M unit :=
  build (projectPath inputs) (dockerfileName inputs) (imageName inputs)
        (version inputs) (args inputs) (pullLatest inputs).

Let publishing : M unit :=
  push (registryUrl inputs) (imageName inputs) (version inputs).

Lemma docker_skips w w1 w2 w3 :
  ensureDockerEngine h w = (Ok tt, w1) ->
  login w1 = (Ok tt, w2) ->
  probe w2 = (Ok true, w3) ->
  docker h build push inputs w =
  (Ok (mkOutput (imageName inputs) (version inputs) ref true),
   logged (Info "⏭️  Image already exists, skipping build and push") w3).
Proof.
  unfold login, probe, docker, try_catch, bind.
  intros -> -> ->. reflexivity.
Qed.

Lemma docker_builds_and_pushes w w1 w2 w3 w4 w5 :
  ensureDockerEngine h w = (Ok tt, w1) ->
  login w1 = (Ok tt, w2) ->
  probe w2 = (Ok false, w3) ->
  building w3 = (Ok tt, w4) ->
  publishing w4 = (Ok tt, w5) ->
  docker h build push inputs w =
  (Ok (mkOutput (imageName inputs) (version inputs) ref false),
   logged (Info "✅ Docker push process completed successfully") w5).
Proof.
  unfold login, probe, building, publishing, docker, try_catch, bind.
  intros -> -> -> -> ->. reflexivity.
Qed.

(** A failure of any phase reaches the caller of [docker], with the
    orchestrator's prefix on the message of the phase. *)
Lemma docker_build_failure w w1 w2 w3 w4 e :
  ensureDockerEngine h w = (Ok tt, w1) ->
  login w1 = (Ok tt, w2) ->
  probe w2 = (Ok false, w3) ->
  building w3 = (Throw e, w4) ->
  docker h build push inputs w = (Throw ("❌ Docker push failed: " ++ e), w4).
Proof.
  unfold login, probe, building, docker, try_catch, bind.
  intros -> -> -> ->. reflexivity.
Qed.


Lemma docker_output r w w' :
  docker h build push inputs w = (Ok r, w') ->
  image r = imageName inputs /\ tag r = version inputs /\ href r = ref.
Proof.
  unfold docker, try_catch, bind.
  destruct (ensureDockerEngine h w) as [[[] | e0] w1]; [| discriminate].
  destruct (registryLogin h _ _ _ w1) as [[[] | e1] w2]; [| discriminate].
  destruct (checkImageExists h _ _ _ w2) as [[[|] | e2] w3];
    [| | discriminate].
  - simpl. intros E. inversion E. auto.
  - destruct (build _ _ _ _ _ _ w3) as [[[] | e3] w4]; [| discriminate].
    destruct (push _ _ _ w4) as [[[] | e4] w5]; [| discriminate].
    simpl. intros E. inversion E. auto.
Qed.

End OrchestratorFacts.

(** C1. Whenever [docker] returns a result, its [href] is
    [registry-url/image-name:version] (and [image], [tag] are the image name
    and the version of the request).  When the engine check and the login
    succeed and the existence probe returns [true], [docker] returns
    [skipped = true] and the only processes of the run are the version
    query, the login and the manifest inspection: [build] and [push] are
    not called.  When the probe returns [false] and [build] and [push] both
    succeed, [docker] returns [skipped = false].  This holds for every
    request and every build and push module. *)
Theorem docker_result h build push inputs w :
  let ref :=
    registryUrl inputs ++ "/" ++ imageName inputs ++ ":" ++ version inputs in
  let login :=
    registryLogin h (registryUrl inputs) (registryUsername inputs)
                  (registryPassword inputs) in
  let probe :=
    checkImageExists h (registryUrl inputs) (imageName inputs)
                     (version inputs) in
  (forall r w',
      docker h build push inputs w = (Ok r, w') ->
      image r = imageName inputs /\ tag r = version inputs /\ href r = ref)
  /\
  (forall w1 w2 w3,
      ensureDockerEngine h w = (Ok tt, w1) ->
      login w1 = (Ok tt, w2) ->
      probe w2 = (Ok true, w3) ->
      exists w',
        docker h build push inputs w =
          (Ok (mkOutput (imageName inputs) (version inputs) ref true), w') /\
        trace w' =
          (trace w ++ [docker_version;
                       docker_login (registryUrl inputs)
                                    (registryUsername inputs)
                                    (registryPassword inputs);
                       manifest_inspect ref])%list)
  /\
  (forall w1 w2 w3 w4 w5,
      ensureDockerEngine h w = (Ok tt, w1) ->
      login w1 = (Ok tt, w2) ->
      probe w2 = (Ok false, w3) ->
      build (projectPath inputs) (dockerfileName inputs) (imageName inputs)
            (version inputs) (args inputs) (pullLatest inputs) w3
        = (Ok tt, w4) ->
      push (registryUrl inputs) (imageName inputs) (version inputs) w4
        = (Ok tt, w5) ->
      exists w',
        docker h build push inputs w =
          (Ok (mkOutput (imageName inputs) (version inputs) ref false), w') /\
        trace w' = trace w5).
Proof.
  intros ref login probe. split; [| split].
  - intros r w'. apply docker_output.
  - intros w1 w2 w3 H1 H2 H3.
    eexists. split.
    + eapply docker_skips; eassumption.
    + simpl.
      rewrite (checkImageExists_trace _ _ _ _ _ _ _ H3).
      rewrite (registryLogin_trace _ _ _ _ _ _ _ H2).
      rewrite (ensureDockerEngine_trace _ _ _ _ H1).
      now rewrite <- !app_assoc.
  - intros w1 w2 w3 w4 w5 H1 H2 H3 H4 H5.
    eexists. split.
    + eapply docker_builds_and_pushes; eassumption.
    + reflexivity.
Qed.

(** ** Frames of the components *)

Ltac frame := unfold when; repeat (auto with frame; intros;
  match goal with
  | |- frames (bind _ _) => apply frames_bind
  | |- frames (try_catch _ _) => apply frames_try_catch
  | |- frames (if ?c then _ else _) => destruct c
  | |- spawns _ (bind _ _) => apply spawns_bind
  | |- spawns _ (try_catch _ _) => apply spawns_try_catch
  | |- spawns _ (if ?c then _ else _) => destruct c
  end).

Lemma frames_ensureDockerEngine h : frames (ensureDockerEngine h).
Proof. unfold ensureDockerEngine. frame. Qed.

Lemma frames_registryLogin h reg user pw :
  frames (registryLogin h reg user pw).
Proof. unfold registryLogin. frame. Qed.

Lemma frames_checkImageExists h reg im v :
  frames (checkImageExists h reg im v).
Proof. unfold checkImageExists. frame. Qed.

Lemma frames_builder h b pp df im v a pl :
  frames (builder_of h b pp df im v a pl).
Proof.
  destruct b; simpl;
    unfold docker_build, buildx_build_push, BuildTs.build, BuildxTs.build;
    frame.
Qed.

Lemma frames_publisher h p reg im v : frames (publisher_of h p reg im v).
Proof.
  destruct p; simpl; unfold PushVersionTs.push, PushTs.push; frame.
Qed.

#[export] Hint Resolve frames_ensureDockerEngine frames_registryLogin
  frames_checkImageExists frames_builder frames_publisher : frame.

Lemma frames_orchestrate h b p inputs : frames (orchestrate h b p inputs).
Proof. unfold orchestrate, docker. frame. Qed.

(** ** Input validation and output emission *)

Lemma require_inputs_run input w :
  (missing_required input /\
   exists name, In name required_names /\
     require_inputs input w = (Throw (name ++ " is required"), w))
  \/
  (~ missing_required input /\ require_inputs input w = (Ok tt, w)).
Proof.
  unfold missing_required, require_inputs, when, bind, required_names.
  destruct (projectPath input) as [| c1 s1];
    [left; split; [auto | exists "project-path"; simpl; auto 10] |].
  destruct (imageName input) as [| c2 s2];
    [left; split; [auto | exists "image-name"; simpl; auto 10] |].
  destruct (version input) as [| c3 s3];
    [left; split; [auto | exists "version"; simpl; auto 10] |].
  destruct (registryUrl input) as [| c4 s4];
    [left; split; [auto 10 | exists "registry-url"; simpl; auto 10] |].
  destruct (registryUsername input) as [| c5 s5];
    [left; split; [auto 10 | exists "registry-username"; simpl; auto 10] |].
  destruct (registryPassword input) as [| c6 s6];
    [left; split; [auto 10 | exists "registry-password"; simpl; auto 10] |].
  right. split; [| reflexivity].
  intros [H | [H | [H | [H | [H | H]]]]]; discriminate.
Qed.

Lemma run_with_missing h build push input w :
  missing_required input ->
  exists name,
    In name required_names /\
    run_with h build push input w =
      (Ok tt, reported ("❌ Action failed: " ++ name ++ " is required") w).
Proof.
  intros Hmiss.
  destruct (require_inputs_run input w) as [(_ & name & Hin & E) | (N & _)];
    [| contradiction].
  exists name. split; [exact Hin |].
  unfold run_with, try_catch, bind. now rewrite E.
Qed.

(** C2. When one of the required inputs (project path, image name,
    version, registry URL, registry username, registry password) is empty,
    [run] ends with one failure report, [... is required] for one of the
    six inputs, and the world is otherwise as it was: the list of spawned
    processes has not grown, whatever the build and push modules are. *)
Theorem run_rejects_missing_input h build push input w :
  missing_required input ->
  exists name,
    In name required_names /\
    run_with h build push input w =
      (Ok tt, reported ("❌ Action failed: " ++ name ++ " is required") w) /\
    trace (snd (run_with h build push input w)) = trace w.
Proof.
  intros Hmiss.
  destruct (run_with_missing h build push input w Hmiss) as (name & Hin & R).
  exists name. split; [exact Hin |].
  split; [exact R | now rewrite R].
Qed.

(** [run] reads the request from the host and goes on as [run_with]. *)
Corollary run_rejects_missing_host_input h build push w :
  missing_required (read_input h) ->
  exists name,
    In name required_names /\
    run h build push w =
      (Ok tt, reported ("❌ Action failed: " ++ name ++ " is required") w).
Proof. intros Hmiss. now apply run_with_missing. Qed.

Lemma run_with_throwing h build push input w e w1 :
  ~ missing_required input ->
  docker h build push input w = (Throw e, w1) ->
  run_with h build push input w =
    (Ok tt, reported ("❌ Action failed: " ++ e) w1).
Proof.
  intros Hall E.
  destruct (require_inputs_run input w) as [(N & _) | (_ & R)];
    [contradiction |].
  unfold run_with, try_catch, bind. now rewrite R, E.
Qed.

(** What [run] does once the orchestrator has returned a result. *)
Lemma run_with_after_docker h build push input w r w1 :
  ~ missing_required input ->
  docker h build push input w = (Ok r, w1) ->
  run_with h build push input w =
  match output_channel_error h with
  | None =>
      (Ok tt,
       mkWorld (trace w1) (log w1) (outputs w1 ++ four_outputs r)
               (files w1 ++ output_records h r) (failures w1))
  | Some e => (Ok tt, reported ("❌ Action failed: " ++ e) w1)
  end.
Proof.
  intros Hall E.
  destruct (require_inputs_run input w) as [(N & _) | (_ & R)];
    [contradiction |].
  unfold run_with, try_catch, bind. rewrite R, E.
  unfold output_channel_error, output_records, core.setOutput, output_file,
    four_outputs, output_lines.
  cbn [trace log outputs files failures].
  destruct (env_lookup (process_env h) "GITHUB_OUTPUT") as [file |].
  - destruct (Js.truthy file) eqn:T.
    + destruct (existsSync h file); [| reflexivity].
      destruct (append_error h file) as [e |] eqn:A; [reflexivity |].
      cbn [trace log outputs files failures].
      unfold when, bind, fs.appendFileSync. rewrite A.
      cbn [trace log outputs files failures map app fst snd].
      rewrite <- !app_assoc. reflexivity.
    + cbn [trace log outputs files failures when ret map app].
      rewrite <- !app_assoc, app_nil_r. reflexivity.
  - cbn [trace log outputs files failures ret map app].
    rewrite <- !app_assoc, app_nil_r. reflexivity.
Qed.

Lemma run_with_trace h build push input w r w1 :
  ~ missing_required input ->
  docker h build push input w = (r, w1) ->
  fst (run_with h build push input w) = Ok tt /\
  trace (snd (run_with h build push input w)) = trace w1.
Proof.
  intros Hall E. destruct r as [r | e].
  - rewrite (run_with_after_docker _ _ _ _ _ _ _ Hall E).
    destruct (output_channel_error h); auto.
  - rewrite (run_with_throwing _ _ _ _ _ _ _ Hall E). auto.
Qed.

(** C10. The action never throws, and its outputs are all or nothing.
    When a required input is missing, or when the orchestrator throws, no
    output is set, nothing is written to the output file, and exactly one
    failure report is made.  When the orchestrator returns a result and
    nothing stands in the way of the outputs, the four outputs [image],
    [tag], [href], [skipped] of that result are set, in this order and no
    other, the file named by [GITHUB_OUTPUT], if any, receives them and
    then the four lines [image=], [tag=], [href=], [skipped=], and no
    failure is reported.  When the output file is missing or cannot be
    written, the first [core.setOutput] throws: no output is set, nothing
    is written and one failure report is made.  This holds for every
    revision of the build and push modules. *)
Theorem outputs_all_or_nothing h b p input w :
  let w' := snd (action h b p input w) in
  fst (action h b p input w) = Ok tt /\
  (missing_required input ->
   outputs w' = outputs w /\ files w' = files w /\
   exists msg, failures w' = (failures w ++ [msg])%list) /\
  (forall e w1,
      ~ missing_required input ->
      orchestrate h b p input w = (Throw e, w1) ->
      outputs w' = outputs w /\ files w' = files w /\
      failures w' = (failures w ++ [("❌ Action failed: " ++ e)%string])%list) /\
  (forall r w1,
      ~ missing_required input ->
      orchestrate h b p input w = (Ok r, w1) ->
      match output_channel_error h with
      | None =>
          outputs w' = (outputs w ++ four_outputs r)%list /\
          files w' = (files w ++ output_records h r)%list /\
          failures w' = failures w
      | Some e =>
          outputs w' = outputs w /\ files w' = files w /\
          failures w' =
            (failures w ++ [("❌ Action failed: " ++ e)%string])%list
      end).
Proof.
  unfold action, orchestrate. cbn zeta.
  set (build := builder_of h b).
  set (push := publisher_of h p).
  split; [| split; [| split]].
  - destruct (require_inputs_run input w) as [(N & _) | (N & _)].
    + destruct (run_with_missing h build push input w N) as (? & _ & ->).
      reflexivity.
    + destruct (docker h build push input w) as [r w1] eqn:E.
      now destruct (run_with_trace _ _ _ _ _ _ _ N E).
  - intros N.
    destruct (run_with_missing h build push input w N) as (name & _ & ->).
    simpl. eauto.
  - intros e w1 N E.
    rewrite (run_with_throwing _ _ _ _ _ _ _ N E). simpl.
    destruct (frames_orchestrate h b p input _ _ _ E) as (O & F & X).
    now rewrite O, F, X.
  - intros r w1 N E.
    rewrite (run_with_after_docker _ _ _ _ _ _ _ N E).
    destruct (frames_orchestrate h b p input _ _ _ E) as (O & F & X).
    destruct (output_channel_error h); cbn [snd outputs files failures reported];
      now rewrite O, F, X.
Qed.

(** ** The builders *)

Lemma exec_cases h i w :
  (exists code, exec.exec h i w = (Ok code, spawned i w) /\
                exec_rejection h i (spawn h (trace w) i) = None) \/
  (exists e, exec.exec h i w = (Throw e, spawned i w) /\
             exec_rejection h i (spawn h (trace w) i) = Some e).
Proof.
  unfold exec.exec, exec_rejection.
  destruct (spawn h (trace w) i) as [code | msg]; [| eauto].
  destruct ((code =? 0)%Z || ignoreReturnCode i); eauto.
Qed.

(** What the docker-build revision does, case by case. *)
Lemma docker_build_run h pp df im v w :
  let path := path_join h pp df in
  let b := docker_cmd ["build"; "-t"; im ++ ":" ++ v; "-f"; path; pp] in
  BuildTs.build h pp df im v w =
  if existsSync h path
  then match exec_rejection h b (spawn h (trace w) b) with
       | None =>
           (Ok tt,
            logged (Info ("✅ Successfully built: " ++ im ++ ":" ++ v))
                   (spawned b w))
       | Some e => (Throw ("❌ Failed to build: Error: " ++ e), spawned b w)
       end
  else (Throw ("❌ Failed to build: Error: ❌ Dockerfile not found at: "
               ++ path), w).
Proof.
  intros path b. unfold BuildTs.build, try_catch, bind, when.
  cbv zeta. fold path. fold b.
  destruct (existsSync h path); cbn [negb ret]; [| reflexivity].
  destruct (exec_cases h b w) as [(c & -> & ->) | (e & -> & ->)];
    reflexivity.
Qed.

(** What the buildx revision does, case by case. *)
Lemma buildx_run h pp df im v reg a (pl : bool) w :
  let path := path_resolve h df in
  let b := BuildxTs.buildx_build h reg (im ++ ":" ++ v) path pp a in
  let w1 := if pl then after_pull h reg im w else w in
  BuildxTs.build h pp df im v reg a pl w =
  if existsSync h path
  then match exec_rejection h b (spawn h (trace w1) b) with
       | None =>
           (Ok tt,
            logged (Info ("✅ Successfully built: " ++ im ++ ":" ++ v))
                   (spawned b w1))
       | Some e => (Throw ("❌ Failed to build: Error: " ++ e), spawned b w1)
       end
  else (Throw ("❌ Failed to build: Error: ❌ Dockerfile not found at: "
               ++ path), w).
Proof.
  intros path b w1. unfold BuildxTs.build, try_catch, bind, when.
  cbv zeta. fold path. fold b.
  destruct (existsSync h path); cbn [negb]; [| reflexivity].
  subst w1. destruct pl; unfold ret; cbv beta iota.
  - unfold after_pull.
    destruct (exec_cases h (BuildxTs.pull_latest reg im) w)
      as [(c & -> & ->) | (e & -> & ->)];
      unfold core.warning; cbv beta iota;
      match goal with
      | |- context [exec.exec h b ?w0] =>
          destruct (exec_cases h b w0) as [(c' & -> & ->) | (e' & -> & ->)]
      end; reflexivity.
  - destruct (exec_cases h b w) as [(c & -> & ->) | (e & -> & ->)];
      reflexivity.
Qed.

(** The pre-flight check of the docker-build revision: the path is the
    project path joined with the Dockerfile name, and when no file is there
    the build throws at once; the world is untouched, so that no process
    was spawned. *)
Lemma docker_build_preflight h pp df im v w :
  existsSync h (path_join h pp df) = false ->
  BuildTs.build h pp df im v w =
  (Throw ("❌ Failed to build: Error: ❌ Dockerfile not found at: "
          ++ path_join h pp df), w).
Proof. intros E. rewrite docker_build_run. cbv zeta. now rewrite E. Qed.

(** X17. The pre-flight check of the buildx revision looks at the Dockerfile
    name resolved against the working directory; the project path plays no
    part in it. *)
Lemma buildx_preflight h pp df im v reg a pl w :
  existsSync h (path_resolve h df) = false ->
  BuildxTs.build h pp df im v reg a pl w =
  (Throw ("❌ Failed to build: Error: ❌ Dockerfile not found at: "
          ++ path_resolve h df), w).
Proof. intros E. rewrite buildx_run. cbv zeta. now rewrite E. Qed.

(** C4, at the failing input.  In the buildx revision of the build step
    the Dockerfile is not looked up under the project path.  With project
    path [app] and Dockerfile name [Dockerfile]: when [app/Dockerfile] is
    missing and the working directory has a Dockerfile, the build spawns
    the pull and the build processes and succeeds; when [app/Dockerfile]
    exists and the working directory has none, the build throws that the
    Dockerfile was not found at the path under the working directory. *)
Theorem buildx_ignores_project_path :
  (existsSync Workspace.root_only
              (path_join Workspace.root_only "app" "Dockerfile") = false /\
   exists w',
     BuildxTs.build Workspace.root_only "app" "Dockerfile" "app" "v1"
                    "reg.example" "--pull" true initial = (Ok tt, w') /\
     map argv (trace w') =
       [["pull"; "reg.example/app:latest"];
        ["buildx"; "build"; "-t"; "reg.example/app:v1"; "-f";
         "/github/workspace/Dockerfile"; "app"; "--pull"; "--push"]]) /\
  (existsSync Workspace.project_only
              (path_join Workspace.project_only "app" "Dockerfile") = true /\
   BuildxTs.build Workspace.project_only "app" "Dockerfile" "app" "v1"
                  "reg.example" "--pull" true initial =
     (Throw ("❌ Failed to build: Error: ❌ Dockerfile not found at: "
             ++ "/github/workspace/Dockerfile"), initial)).
Proof.
  split; split; try reflexivity.
  eexists. split; reflexivity.
Qed.

(** C5.  In the buildx build with [pullLatest = true] and the Dockerfile
    in place, a pull of [registry/image:latest] that fails in any way (a
    non-zero exit code, or a process that could not be run) is logged as a
    warning and the build goes on: the [docker buildx build] process is
    spawned next, nothing else is, and the outcome of the build step is the
    outcome of that process alone; when it exits with code zero the build
    step succeeds. *)
Theorem pull_failure_is_a_warning h pp df im v reg a w :
  let pull := BuildxTs.pull_latest reg im in
  let b :=
    BuildxTs.buildx_build h reg (im ++ ":" ++ v) (path_resolve h df) pp a in
  existsSync h (path_resolve h df) = true ->
  spawn h (trace w) pull <> Exited 0 ->
  exists e,
    exec_rejection h pull (spawn h (trace w) pull) = Some e /\
    let w1 :=
      logged (Warning ("⚠️ Failed to pull " ++ reg ++ "/" ++ im
                       ++ ":latest: Error: " ++ e)) (spawned pull w) in
    trace (snd (BuildxTs.build h pp df im v reg a true w)) =
      (trace w ++ [pull; b])%list /\
    (forall e', exec_rejection h b (spawn h (trace w ++ [pull]) b) = Some e' ->
       BuildxTs.build h pp df im v reg a true w =
         (Throw ("❌ Failed to build: Error: " ++ e'), spawned b w1)) /\
    (spawn h (trace w ++ [pull]) b = Exited 0 ->
       BuildxTs.build h pp df im v reg a true w =
         (Ok tt,
          logged (Info ("✅ Successfully built: " ++ im ++ ":" ++ v))
                 (spawned b w1))).
Proof.
  intros pull b Hfile Hpull.
  destruct (not_zero_rejected h pull _ eq_refl Hpull) as (e & He).
  exists e. split; [exact He |].
  cbv zeta. rewrite buildx_run. cbv zeta. rewrite Hfile.
  unfold after_pull. fold pull. rewrite He. fold b.
  cbn [trace logged spawned].
  split; [| split].
  - destruct (exec_rejection h b _); cbn [snd trace logged spawned];
      now rewrite <- app_assoc.
  - now intros e' ->.
  - now intros ->.
Qed.

(** ** Extra build arguments *)

Lemma append_assoc_char piece c s :
  (piece ++ String c EmptyString) ++ s = piece ++ String c s.
Proof. induction piece as [| d piece IH]; simpl; [reflexivity | now rewrite IH]. Qed.

Lemma append_empty piece : piece ++ "" = piece.
Proof. induction piece as [| d piece IH]; simpl; [reflexivity | now rewrite IH]. Qed.

Lemma trimStart_eq s :
  Js.trimStart s =
  match Js.space_prefix s with
  | Some r => Js.trimStart r
  | None => s
  end.
Proof.
  destruct s as [| a [| b [| c s]]]; cbn [Js.trimStart Js.space_prefix];
    try reflexivity.
  - destruct (Js.space1 a); reflexivity.
  - destruct (Js.space1 a); [reflexivity |].
    destruct (Js.space2 a b); reflexivity.
  - destruct (Js.space1 a); [reflexivity |].
    destruct (Js.space2 a b); [reflexivity |].
    destruct (Js.space3 a b c); reflexivity.
Qed.

Lemma split_from_eq piece in_sep s :
  Js.split_from piece in_sep s =
  match s with
  | EmptyString => [piece]
  | String a s1 =>
      match Js.space_prefix s with
      | Some r =>
          if in_sep then Js.split_from piece true r
          else piece :: Js.split_from EmptyString true r
      | None => Js.split_from (piece ++ String a EmptyString) false s1
      end
  end.
Proof.
  destruct s as [| a [| b [| c s]]]; cbn [Js.split_from Js.space_prefix];
    try reflexivity.
  - destruct (Js.space1 a); reflexivity.
  - destruct (Js.space1 a); [reflexivity |].
    destruct (Js.space2 a b); reflexivity.
  - destruct (Js.space1 a); [reflexivity |].
    destruct (Js.space2 a b); [reflexivity |].
    destruct (Js.space3 a b c); reflexivity.
Qed.

Lemma without_spaces_eq s :
  without_spaces s =
  match s with
  | EmptyString => EmptyString
  | String a s1 =>
      match Js.space_prefix s with
      | Some r => without_spaces r
      | None => String a (without_spaces s1)
      end
  end.
Proof.
  destruct s as [| a [| b [| c s]]]; cbn [without_spaces Js.space_prefix];
    try reflexivity.
  - destruct (Js.space1 a); reflexivity.
  - destruct (Js.space1 a); [reflexivity |].
    destruct (Js.space2 a b); reflexivity.
  - destruct (Js.space1 a); [reflexivity |].
    destruct (Js.space2 a b); [reflexivity |].
    destruct (Js.space3 a b c); reflexivity.
Qed.

Lemma space_prefix_shorter s r :
  Js.space_prefix s = Some r -> (String.length r < String.length s)%nat.
Proof.
  destruct s as [| a [| b [| c s]]]; cbn [Js.space_prefix]; try discriminate.
  - destruct (Js.space1 a); intros [= <-]. simpl. lia.
  - destruct (Js.space1 a); [intros [= <-]; simpl; lia |].
    destruct (Js.space2 a b); intros [= <-]. simpl. lia.
  - destruct (Js.space1 a); [intros [= <-]; simpl; lia |].
    destruct (Js.space2 a b); [intros [= <-]; simpl; lia |].
    destruct (Js.space3 a b c); intros [= <-]. simpl. lia.
Qed.

(** A white-space character at the head of a string stays one when the
    string is extended. *)
Lemma space_prefix_app s r u :
  Js.space_prefix s = Some r -> Js.space_prefix (s ++ u) = Some (r ++ u).
Proof.
  destruct s as [| a [| b [| c s]]];
    cbn [Js.space_prefix append]; try discriminate.
  - destruct (Js.space1 a); intros [= <-]. reflexivity.
  - destruct (Js.space1 a); [intros [= <-]; reflexivity |].
    destruct (Js.space2 a b); intros [= <-]. reflexivity.
  - destruct (Js.space1 a); [intros [= <-]; reflexivity |].
    destruct (Js.space2 a b); [intros [= <-]; reflexivity |].
    destruct (Js.space3 a b c); intros [= <-]. reflexivity.
Qed.

Lemma no_space_prefix_of_prefix s u :
  Js.space_prefix (s ++ u) = None -> Js.space_prefix s = None.
Proof.
  intros H. destruct (Js.space_prefix s) as [r |] eqn:E; [| reflexivity].
  rewrite (space_prefix_app _ _ u E) in H. discriminate.
Qed.

Ltac bytes :=
  unfold Js.space1, Js.space2, Js.space3, continuation in *;
  cbv zeta in *;
  repeat match goal with
         | a : ascii |- _ =>
             let x := fresh "x" in
             set (x := nat_of_ascii a) in *; clearbody x; clear a
         end;
  repeat match goal with
         | H : _ = true |- _ =>
             first [ rewrite andb_true_iff in H | rewrite orb_true_iff in H
                   | rewrite Nat.leb_le in H | rewrite Nat.eqb_eq in H ]
         | H : _ \/ _ |- _ =>
             first [ rewrite andb_true_iff in H | rewrite orb_true_iff in H
                   | rewrite Nat.leb_le in H | rewrite Nat.eqb_eq in H ]
         | H : _ /\ _ |- _ =>
             first [ rewrite andb_true_iff in H | rewrite orb_true_iff in H
                   | rewrite Nat.leb_le in H | rewrite Nat.eqb_eq in H ]
         end;
  repeat first [ rewrite andb_true_iff | rewrite orb_true_iff
               | rewrite Nat.leb_le | rewrite Nat.eqb_eq ];
  try lia.

(** No white-space character starts with a continuation byte. *)
Lemma continuation_no_space a s :
  continuation a = true -> Js.space_prefix (String a s) = None.
Proof.
  intros H.
  assert (H1 : Js.space1 a = false).
  { apply not_true_is_false. intros F. bytes. }
  assert (H2 : forall b, Js.space2 a b = false).
  { intros b. apply not_true_is_false. intros F. bytes. }
  assert (H3 : forall b c, Js.space3 a b c = false).
  { intros b c. apply not_true_is_false. intros F. bytes. }
  cbn [Js.space_prefix]. rewrite H1.
  destruct s as [| b [| c s]]; [reflexivity | |]; rewrite H2;
    [reflexivity |]. now rewrite H3.
Qed.

Lemma space2_continuation a b :
  Js.space2 a b = true -> continuation b = true.
Proof. intros H. bytes. Qed.

Lemma space3_continuation a b c :
  Js.space3 a b c = true -> continuation b = true /\ continuation c = true.
Proof. intros H. split; bytes. Qed.

Lemma trimStart_continuation a s :
  continuation a = true -> Js.trimStart (String a s) = String a s.
Proof.
  intros H. rewrite trimStart_eq. now rewrite continuation_no_space.
Qed.

Lemma blank_space_prefix s r :
  Js.space_prefix s = Some r -> blank s = blank r.
Proof. intros H. unfold blank. now rewrite (trimStart_eq s), H. Qed.

Lemma not_blank_no_space s :
  s <> "" -> Js.space_prefix s = None -> blank s = false.
Proof.
  intros N H. unfold blank. rewrite trimStart_eq, H.
  destruct s; [congruence | reflexivity].
Qed.

Lemma trimEnd_not_blank a s :
  blank (String a s) = false ->
  Js.trimEnd (String a s) = String a (Js.trimEnd s).
Proof.
  unfold blank. cbn [Js.trimEnd].
  destruct (Js.trimStart (String a s)); [discriminate | reflexivity].
Qed.

Lemma trimEnd_blank s : blank s = true -> Js.trimEnd s = "".
Proof.
  unfold blank. destruct s as [| a s]; [reflexivity |]. cbn [Js.trimEnd].
  destruct (Js.trimStart (String a s)); [reflexivity | discriminate].
Qed.

(** [trimEnd] keeps a prefix of the string. *)
Lemma trimEnd_prefix s : exists b, s = Js.trimEnd s ++ b.
Proof.
  induction s as [| a s (b & IH)]; [now exists "" |].
  destruct (blank (String a s)) eqn:B.
  - rewrite (trimEnd_blank _ B). now exists (String a s).
  - rewrite (trimEnd_not_blank _ _ B). exists b. simpl. now rewrite <- IH.
Qed.

(** [trimEnd] steps over a white-space character that is followed by
    something else than white space. *)
Lemma trimEnd_space_prefix s r :
  Js.space_prefix s = Some r -> blank r = false ->
  exists ws,
    Js.trimEnd s = ws ++ Js.trimEnd r /\
    forall u, Js.space_prefix (ws ++ u) = Some u.
Proof.
  intros H B.
  assert (Bs : blank s = false) by now rewrite (blank_space_prefix _ _ H).
  destruct s as [| a s1]; [discriminate |].
  rewrite (trimEnd_not_blank _ _ Bs).
  cbn [Js.space_prefix] in H.
  destruct (Js.space1 a) eqn:S1.
  { injection H as ->. exists (String a ""). split; [reflexivity |].
    intros u. cbn [append Js.space_prefix]. now rewrite S1. }
  destruct s1 as [| b s2]; [discriminate |].
  destruct (Js.space2 a b) eqn:S2.
  { injection H as ->.
    pose proof (space2_continuation _ _ S2) as Cb.
    rewrite trimEnd_not_blank
      by (unfold blank; now rewrite trimStart_continuation).
    exists (String a (String b "")). split; [reflexivity |].
    intros u. cbn [append Js.space_prefix]. now rewrite S1, S2. }
  destruct s2 as [| c s3]; [discriminate |].
  destruct (Js.space3 a b c) eqn:S3; [| discriminate].
  injection H as ->.
  destruct (space3_continuation _ _ _ S3) as (Cb & Cc).
  rewrite trimEnd_not_blank
    by (unfold blank; now rewrite trimStart_continuation).
  rewrite trimEnd_not_blank
    by (unfold blank; now rewrite trimStart_continuation).
  exists (String a (String b (String c ""))). split; [reflexivity |].
  intros u. cbn [append Js.space_prefix]. now rewrite S1, S2, S3.
Qed.

(** What [trimEnd] returns is white space only when the string is. *)
Lemma trimEnd_keeps_not_blank : forall n s,
  (String.length s <= n)%nat -> blank s = false ->
  blank (Js.trimEnd s) = false.
Proof.
  induction n as [| n IH]; intros s L B.
  - destruct s; [discriminate | simpl in L; lia].
  - destruct (Js.space_prefix s) as [r |] eqn:E.
    + pose proof (space_prefix_shorter _ _ E) as Lr.
      pose proof B as Br. rewrite (blank_space_prefix _ _ E) in Br.
      destruct (trimEnd_space_prefix _ _ E Br) as (ws & -> & W).
      rewrite (blank_space_prefix _ _ (W _)).
      apply IH; [lia | exact Br].
    + destruct s as [| a s1]; [discriminate |].
      rewrite (trimEnd_not_blank _ _ B).
      apply not_blank_no_space; [discriminate |].
      destruct (trimEnd_prefix s1) as (b & Hb).
      apply (no_space_prefix_of_prefix _ b).
      cbn [append]. now rewrite <- Hb.
Qed.

Lemma split_string a t t1 t2 :
  String a t = t1 ++ t2 ->
  (t1 = "" /\ t2 = String a t) \/ exists t1', t1 = String a t1' /\ t = t1' ++ t2.
Proof.
  destruct t1 as [| c t1]; simpl; intros H; [left; auto |].
  injection H as -> ->. right. eauto.
Qed.

(** No white space is left at the end of what [trimEnd] returns. *)
Lemma trimEnd_suffixes s : forall t1 t2,
  Js.trimEnd s = t1 ++ t2 -> t2 <> "" -> blank t2 = false.
Proof.
  induction s as [| a s IH]; intros t1 t2 H N.
  - destruct t1, t2; simpl in H; congruence.
  - destruct (blank (String a s)) eqn:B.
    + rewrite (trimEnd_blank _ B) in H.
      destruct t1, t2; simpl in H; congruence.
    + pose proof (trimEnd_keeps_not_blank _ _ (le_n _) B) as K.
      rewrite (trimEnd_not_blank _ _ B) in H, K.
      destruct (split_string _ _ _ _ H) as [(-> & ->) | (t1' & -> & H')].
      * exact K.
      * exact (IH _ _ H' N).
Qed.

(** No white space is left at the start of what [trimStart] returns. *)
Lemma trimStart_no_space : forall n s,
  (String.length s <= n)%nat -> Js.space_prefix (Js.trimStart s) = None.
Proof.
  induction n as [| n IH]; intros s L.
  - destruct s; [reflexivity | simpl in L; lia].
  - rewrite trimStart_eq. destruct (Js.space_prefix s) as [r |] eqn:E.
    + apply IH. pose proof (space_prefix_shorter _ _ E). lia.
    + exact E.
Qed.

Lemma trim_no_space s : Js.space_prefix (Js.trim s) = None.
Proof.
  unfold Js.trim. destruct (trimEnd_prefix (Js.trimStart s)) as (b & Hb).
  apply (no_space_prefix_of_prefix _ b). rewrite <- Hb.
  exact (trimStart_no_space _ _ (le_n _)).
Qed.

Lemma split_from_not_nil : forall n s piece in_sep,
  (String.length s <= n)%nat -> Js.split_from piece in_sep s <> [].
Proof.
  induction n as [| n IH]; intros s piece in_sep L; rewrite split_from_eq.
  - destruct s; [discriminate | simpl in L; lia].
  - destruct s as [| a s1]; [discriminate |].
    destruct (Js.space_prefix (String a s1)) as [r |] eqn:E.
    + destruct in_sep; [| discriminate].
      apply IH. pose proof (space_prefix_shorter _ _ E). lia.
    + apply IH. simpl in L. lia.
Qed.

Lemma split_from_concat : forall n s piece in_sep,
  (String.length s <= n)%nat ->
  String.concat "" (Js.split_from piece in_sep s) = piece ++ without_spaces s.
Proof.
  induction n as [| n IH]; intros s piece in_sep L;
    rewrite split_from_eq, without_spaces_eq.
  - destruct s; [simpl; now rewrite append_empty | simpl in L; lia].
  - destruct s as [| a s1]; [simpl; now rewrite append_empty |].
    destruct (Js.space_prefix (String a s1)) as [r |] eqn:E.
    + pose proof (space_prefix_shorter _ _ E) as Lr.
      destruct in_sep.
      * apply IH. lia.
      * cbn [String.concat].
        destruct (Js.split_from "" true r) eqn:F.
        -- now apply (split_from_not_nil _ _ _ _ (le_n _)) in F.
        -- rewrite <- F, IH by lia. reflexivity.
    + rewrite IH by (simpl in L; lia). apply append_assoc_char.
Qed.

Lemma clear_before_space_free piece s :
  clear_before piece s = true -> space_free piece = true.
Proof.
  induction piece as [| c piece IH]; [reflexivity |].
  cbn [clear_before space_free].
  destruct (Js.space_prefix (String c piece ++ s)) eqn:E; [discriminate |].
  rewrite (no_space_prefix_of_prefix _ _ E). exact IH.
Qed.

Lemma clear_before_append piece a s :
  clear_before piece (String a s) = true ->
  Js.space_prefix (String a s) = None ->
  clear_before (piece ++ String a EmptyString) s = true.
Proof.
  intros H N. induction piece as [| c piece IH].
  - cbn [append clear_before]. now rewrite N.
  - cbn [clear_before] in H |- *.
    change (String c piece ++ String a "") with (String c (piece ++ String a "")).
    cbn [clear_before].
    change (String c (piece ++ String a "") ++ s)
      with ((String c piece ++ String a "") ++ s).
    rewrite append_assoc_char.
    destruct (Js.space_prefix (String c piece ++ String a s));
      [discriminate | auto].
Qed.

Lemma split_from_space_free : forall n s piece in_sep,
  (String.length s <= n)%nat ->
  clear_before piece s = true ->
  (in_sep = true -> piece = "") ->
  Forall (fun t => space_free t = true) (Js.split_from piece in_sep s).
Proof.
  induction n as [| n IH]; intros s piece in_sep L Q I; rewrite split_from_eq.
  - destruct s; [| simpl in L; lia].
    constructor; [| constructor]. exact (clear_before_space_free _ _ Q).
  - destruct s as [| a s1].
    { constructor; [| constructor]. exact (clear_before_space_free _ _ Q). }
    destruct (Js.space_prefix (String a s1)) as [r |] eqn:E.
    + pose proof (space_prefix_shorter _ _ E) as Lr.
      assert (R : Forall (fun t => space_free t = true)
                         (Js.split_from "" true r))
        by (apply IH; [lia | reflexivity | reflexivity]).
      destruct in_sep.
      * now rewrite (I eq_refl).
      * constructor; [exact (clear_before_space_free _ _ Q) | exact R].
    + apply IH; [simpl in L; lia | now apply clear_before_append
                | discriminate].
Qed.

Lemma append_char_not_empty piece c : piece ++ String c EmptyString <> "".
Proof. destruct piece; discriminate. Qed.

(** In a string that neither starts nor ends with white space, every
    piece between two separators holds a character. *)
Lemma split_from_no_empty : forall n s piece in_sep,
  (String.length s <= n)%nat ->
  (forall t1 t2, s = t1 ++ t2 -> t2 <> "" -> blank t2 = false) ->
  piece <> "" \/
  (s <> "" /\ (in_sep = true \/ Js.space_prefix s = None)) ->
  Forall (fun t => t <> "") (Js.split_from piece in_sep s).
Proof.
  induction n as [| n IH]; intros s piece in_sep L He Hok;
    rewrite split_from_eq.
  - destruct s; [| simpl in L; lia].
    constructor; [| constructor].
    destruct Hok as [H | (H & _)]; [exact H | congruence].
  - destruct s as [| a s1].
    { constructor; [| constructor].
      destruct Hok as [H | (H & _)]; [exact H | congruence]. }
    assert (He1 : forall t1 t2, s1 = t1 ++ t2 -> t2 <> "" -> blank t2 = false).
    { intros t1 t2 -> N. exact (He (String a t1) t2 eq_refl N). }
    destruct (Js.space_prefix (String a s1)) as [r |] eqn:E.
    + pose proof (space_prefix_shorter _ _ E) as Lr.
      assert (Bs : blank (String a s1) = false)
        by (apply (He "" (String a s1) eq_refl); discriminate).
      assert (Nr : r <> "").
      { intros ->. rewrite (blank_space_prefix _ _ E) in Bs. discriminate. }
      assert (Her : forall t1 t2, r = t1 ++ t2 -> t2 <> "" -> blank t2 = false).
      { clear - E He He1. intros t1 t2 -> N.
        cbn [Js.space_prefix] in E.
        destruct (Js.space1 a); [injection E as ->; eauto |].
        destruct s1 as [| b s2]; [discriminate |].
        destruct (Js.space2 a b).
        { injection E as ->. exact (He (String a (String b t1)) t2 eq_refl N). }
        destruct s2 as [| c s3]; [discriminate |].
        destruct (Js.space3 a b c); [| discriminate].
        injection E as ->.
        exact (He (String a (String b (String c t1))) t2 eq_refl N). }
      destruct in_sep.
      * apply IH; [lia | exact Her |].
        destruct Hok as [H | _]; [now left | right; auto].
      * destruct Hok as [H | (_ & [H | H])]; [| discriminate | discriminate].
        constructor; [exact H |].
        apply IH; [lia | exact Her | right; auto].
    + apply IH; [simpl in L; lia | exact He1 |].
      left. apply append_char_not_empty.
Qed.

(** X16. What [args.trim().split(/\s+/)] yields: the tokens put together are
    the trimmed string without its white space, no token holds white
    space, and no token is empty unless the trimmed string is.  White
    space is that of JavaScript, the no-break space and the other
    characters of several bytes included. *)
Lemma tokens_of_args a :
  let tokens := Js.split_ws (Js.trim a) in
  String.concat "" tokens = without_spaces (Js.trim a) /\
  Forall (fun t => space_free t = true) tokens /\
  (Js.trim a <> "" -> Forall (fun t => t <> "") tokens).
Proof.
  cbv zeta. unfold Js.split_ws. split; [| split].
  - exact (split_from_concat _ _ _ _ (le_n _)).
  - apply (split_from_space_free _ _ _ _ (le_n _)); [reflexivity | discriminate].
  - intros Hne.
    apply (split_from_no_empty _ _ _ _ (le_n _)).
    + unfold Js.trim. apply trimEnd_suffixes.
    + right. split; [exact Hne |]. right. apply trim_no_space.
Qed.

(** C7, at the failing input.  [args.trim().split(/\s+/)] on the empty
    string is the list that holds the empty string, so that the buildx
    command line carries one extra token, the empty one, between the
    project path and [--push]; the same goes for a string of white space
    only. *)
Theorem empty_args_pass_an_empty_token reg fullImageName path pp :
  Js.split_ws (Js.trim "") = [""] /\
  length (Js.split_ws (Js.trim "")) = 1%nat /\
  Js.split_ws (Js.trim "   ") = [""] /\
  BuildxTs.buildx_argv reg fullImageName path pp "" =
    ["buildx"; "build"; "-t"; reg ++ "/" ++ fullImageName; "-f"; path; pp;
     ""; "--push"].
Proof. repeat split. Qed.

(** ** The publisher *)

Lemma attempt_all_or_first h steps : forall t,
  (snd (attempt h t steps) = None /\ fst (attempt h t steps) = steps /\
   forall before i after,
     steps = (before ++ i :: after)%list ->
     exec_rejection h i (spawn h (t ++ before) i) = None) \/
  (exists e before i after,
      snd (attempt h t steps) = Some e /\
      steps = (before ++ i :: after)%list /\
      fst (attempt h t steps) = (before ++ [i])%list /\
      exec_rejection h i (spawn h (t ++ before) i) = Some e).
Proof.
  induction steps as [| i rest IH]; intros t; simpl.
  - left. repeat split. intros [| ? ?] ? ? D; discriminate.
  - destruct (exec_rejection h i (spawn h t i)) as [e |] eqn:E.
    + right. exists e, [], i, rest. simpl. rewrite app_nil_r. auto.
    + specialize (IH (t ++ [i])%list).
      destruct (attempt h (t ++ [i]) rest) as [l r]. simpl in *.
      destruct IH as [(-> & -> & A) |
                      (e & before & j & after & -> & -> & -> & R)].
      * left. repeat split.
        intros [| k before] j after D; simpl in D; inversion D; subst.
        -- now rewrite app_nil_r.
        -- specialize (A before j after eq_refl).
           now rewrite <- app_assoc in A.
      * right. exists e, (i :: before), j, after. simpl.
        rewrite <- app_assoc in R. auto.
Qed.

Ltac step_exec h :=
  match goal with
  | |- context [exec.exec h ?i ?w0] =>
      let c := fresh "c" in
      let e := fresh "e" in
      let E1 := fresh "E" in
      let E2 := fresh "E" in
      destruct (exec_cases h i w0) as [(c & E1 & E2) | (e & E1 & E2)];
      rewrite E1; clear E1;
      cbn [trace logged spawned] in E2 |- *;
      rewrite E2; clear E2
  end.

Lemma push_version_run h reg im v w :
  let outcome := attempt h (trace w) (version_steps reg im v) in
  trace (snd (PushVersionTs.push h reg im v w)) =
    (trace w ++ fst outcome)%list /\
  fst (PushVersionTs.push h reg im v w) =
    match snd outcome with
    | None => Ok tt
    | Some e => Throw (push_failure reg im v e)
    end.
Proof.
  unfold PushVersionTs.push, version_steps, tag_step, push_step, push_failure,
    try_catch, bind, core.info, throw, attempt.
  cbv zeta.
  step_exec h; [| split; reflexivity].
  step_exec h; split; try reflexivity; cbn [fst snd trace logged spawned];
    now rewrite <- app_assoc.
Qed.

Lemma push_latest_run h reg im v w :
  let outcome :=
    attempt h (trace w) (version_steps reg im v ++ latest_steps reg im v) in
  trace (snd (PushTs.push h reg im v w)) = (trace w ++ fst outcome)%list /\
  fst (PushTs.push h reg im v w) =
    match snd outcome with
    | None => Ok tt
    | Some e => Throw (push_failure reg im v e)
    end.
Proof.
  unfold PushTs.push, version_steps, latest_steps, tag_step, push_step,
    push_failure, try_catch, bind, core.info, throw, attempt.
  cbv zeta. cbn [app].
  step_exec h; [| split; reflexivity].
  step_exec h;
    [| split; try reflexivity; cbn [fst snd trace logged spawned];
       now rewrite <- app_assoc].
  step_exec h;
    [| split; try reflexivity; cbn [fst snd trace logged spawned];
       now rewrite <- !app_assoc].
  step_exec h; split; try reflexivity; cbn [fst snd trace logged spawned];
    now rewrite <- !app_assoc.
Qed.



(** ** Build strategy and publisher *)

(** The process of the build step of the buildx revision is a build with
    integrated push. *)
Lemma buildx_is_integrated_push h reg full path pp a :
  is_integrated_push (BuildxTs.buildx_build h reg full path pp a) = true.
Proof.
  unfold is_integrated_push, BuildxTs.buildx_build, BuildxTs.buildx_argv.
  cbn [argv app existsb]. rewrite existsb_app. cbn [existsb].
  rewrite String.eqb_refl. now rewrite !orb_true_r.
Qed.

(** No process of a run over the docker-build revision is a build with
    integrated push. *)
Lemma docker_build_never_pushes h p inputs :
  spawns (fun i => is_integrated_push i = false)
         (orchestrate h DockerBuild p inputs).
Proof.
  unfold orchestrate, docker, builder_of, docker_build, ensureDockerEngine,
    registryLogin, checkImageExists, BuildTs.build.
  destruct p; unfold publisher_of, PushVersionTs.push, PushTs.push;
    frame.
Qed.

(** The build step of the buildx revision, called as index.ts calls it,
    never returns: it throws at the Dockerfile check or at [args.trim()]. *)
Lemma buildx_build_push_throws h pp df im v a pl w x w' :
  buildx_build_push h pp df im v a pl w <> (Ok x, w').
Proof.
  unfold buildx_build_push, bind, throw.
  destruct (try_catch _ _ w) as [[[] | e] w1]; discriminate.
Qed.

Lemma spawns_then_throws {A B} P (m : M A) (k : A -> M B) :
  spawns P m -> (forall w a w', m w <> (Ok a, w')) -> spawns P (bind m k).
Proof.
  intros Hm N w r w'. unfold bind.
  destruct (m w) as [[a | e] w1] eqn:E.
  - now destruct (N _ _ _ E).
  - intros H. inversion H; subst. exact (Hm _ _ _ E).
Qed.

(** A run over the buildx revision spawns neither a build with integrated
    push nor a step of the publisher. *)
Lemma buildx_run_never_publishes h p inputs :
  spawns (fun i => is_integrated_push i = false /\
                   is_publisher_step i = false)
         (orchestrate h BuildxBuildPush p inputs).
Proof.
  unfold orchestrate, docker. cbv zeta.
  apply spawns_try_catch; [| frame].
  apply spawns_bind; [unfold ensureDockerEngine; frame | intros _].
  apply spawns_bind; [unfold registryLogin; frame | intros _].
  apply spawns_bind; [unfold checkImageExists; frame | intros [|]];
    [frame |].
  apply spawns_then_throws.
  - unfold builder_of, buildx_build_push. frame.
  - intros w a w'. apply buildx_build_push_throws.
Qed.

(** C8. No run builds with integrated push and then invokes the
    publisher: whichever revisions of the build and push modules are used,
    no process of a run is a build with integrated push
    ([docker buildx build ... --push]).  The docker-build revision runs
    [docker build], which does not push.  The buildx revision, called with
    the six arguments of index.ts, throws before it spawns
    [docker buildx build]; the orchestrator stops there, so that a run over
    that revision spawns no step of the publisher ([docker tag],
    [docker push]) either. *)
Theorem publisher_never_follows_integrated_push h b p inputs w :
  exists l,
    trace (snd (orchestrate h b p inputs w)) = (trace w ++ l)%list /\
    Forall (fun i => is_integrated_push i = false) l /\
    (b = BuildxBuildPush -> Forall (fun i => is_publisher_step i = false) l).
Proof.
  destruct (orchestrate h b p inputs w) as [r w'] eqn:E. cbn [snd].
  destruct b.
  - destruct (docker_build_never_pushes h p inputs _ _ _ E) as (l & T & F).
    exists l. split; [exact T |]. split; [exact F | discriminate].
  - destruct (buildx_run_never_publishes h p inputs _ _ _ E) as (l & T & F).
    exists l. split; [exact T |].
    split; [| intros _]; (eapply Forall_impl; [| exact F]); now intros i [? ?].
Qed.

(** ** The password *)

Ltac token_list :=
  unfold discreet, command_line_tokens; cbn [argv input docker_cmd];
  split; [| auto];
  intros t Ht; cbn [In] in Ht |- *;
  intuition (subst; auto 30).

Section Discretion.

Variable h : Host.
Variables pp df im v reg user pw a : string.

Let tokens := command_line_tokens h pp df im v reg user a.
Let login := docker_login reg user pw.
Let P := discreet tokens login.

Lemma discreet_version : P docker_version.
Proof. subst P tokens. unfold docker_version. token_list. Qed.

Lemma discreet_login : P login.
Proof. subst P tokens login. unfold docker_login. token_list. Qed.

Lemma discreet_manifest :
  P (manifest_inspect (reg ++ "/" ++ im ++ ":" ++ v)).
Proof. subst P tokens. unfold manifest_inspect. token_list. Qed.

Lemma discreet_build :
  P (docker_cmd ["build"; "-t"; im ++ ":" ++ v; "-f"; path_join h pp df;
                 pp]).
Proof. subst P tokens. token_list. Qed.

Lemma discreet_pull : P (BuildxTs.pull_latest a im).
Proof. subst P tokens. unfold BuildxTs.pull_latest. token_list. Qed.

Lemma discreet_tag target :
  In target [reg ++ "/" ++ im ++ ":" ++ v; reg ++ "/" ++ im ++ ":latest"] ->
  P (docker_cmd ["tag"; im ++ ":" ++ v; target]).
Proof.
  subst P tokens. intros [<- | [<- | []]]; token_list.
Qed.

Lemma discreet_push target :
  In target [reg ++ "/" ++ im ++ ":" ++ v; reg ++ "/" ++ im ++ ":latest"] ->
  P (docker_cmd ["push"; target]).
Proof.
  subst P tokens. intros [<- | [<- | []]]; token_list.
Qed.

Hint Resolve discreet_version discreet_login discreet_manifest
  discreet_build discreet_pull : frame.

Lemma discreet_orchestrate b p pl :
  spawns P
    (orchestrate h b p (mkInput pp im df v reg user pw a pl)).
Proof.
  unfold orchestrate, docker, ensureDockerEngine, registryLogin,
    checkImageExists.
  cbn [projectPath imageName dockerfileName version registryUrl
       registryUsername registryPassword args pullLatest].
  fold login.
  destruct b, p;
    unfold builder_of, publisher_of, docker_build, buildx_build_push,
      BuildTs.build, PushVersionTs.push, PushTs.push;
    cbv zeta; frame;
    try (apply spawns_exec;
         first [apply discreet_tag | apply discreet_push];
         cbn [In]; auto).
Qed.

End Discretion.

(** C6, as stated, fails for a password that is also the user name: the
    user name is a token of the command line of [docker login]. *)
Lemma password_equal_to_username_is_a_token :
  exists i,
    In i (trace (snd (registryLogin Credentials.host "reg.example"
                                    Credentials.username
                                    Credentials.password initial))) /\
    argv i = ["login"; "reg.example"; "-u"; "admin"; "--password-stdin"] /\
    In Credentials.password (argv i).
Proof.
  eexists. split; [left; reflexivity |]. split; [reflexivity |].
  simpl. auto.
Qed.

(** C6, amended.  The command lines of a run are made of tokens computed
    from the other fields of the request (the registry URL, the user name,
    the references [registry/image:version], [image:version] and
    [registry/image:latest], the path of the Dockerfile, the project path,
    and the reference [args/image:latest] that the buildx revision pulls)
    and of the fixed words of the docker commands; the password is written
    to the standard input of [docker login] and of no other process.  So
    for every password that is not one of these tokens, the password is not
    a token of the argument list of any process of the run, whichever
    revisions of the build and push modules are used. *)
Theorem password_only_on_stdin h b p inputs w :
  let pw := registryPassword inputs in
  let login :=
    docker_login (registryUrl inputs) (registryUsername inputs) pw in
  let tokens :=
    command_line_tokens h (projectPath inputs) (dockerfileName inputs)
      (imageName inputs) (version inputs) (registryUrl inputs)
      (registryUsername inputs) (args inputs) in
  ~ In pw tokens ->
  input login = Some pw /\
  exists l,
    trace (snd (orchestrate h b p inputs w)) = (trace w ++ l)%list /\
    Forall (fun i => incl (argv i) tokens /\ ~ In pw (argv i) /\
                     (input i = None \/ i = login)) l.
Proof.
  destruct inputs as [pp im df v reg user pw a pl].
  cbn [projectPath imageName dockerfileName version registryUrl
       registryUsername registryPassword args pullLatest].
  intros Hpw. split; [reflexivity |].
  destruct (orchestrate h b p (mkInput pp im df v reg user pw a pl) w)
    as [r w'] eqn:E.
  destruct (discreet_orchestrate h pp df im v reg user pw a b p pl _ _ _ E)
    as (l & T & F).
  exists l. split; [exact T |].
  eapply Forall_impl; [| exact F].
  intros i (Hincl & Hin). repeat split; auto.
Qed.

(** * The theorems at concrete requests *)

Lemma docker_result_witness :
  (exists w',
      docker Scenario.image_present (docker_build Scenario.image_present)
             (PushTs.push Scenario.image_present) Demo.request initial =
        (Ok (mkOutput "app" "v1" "reg.example/app:v1" true), w') /\
      map argv (trace w') =
        [["--version"];
         ["login"; "reg.example"; "-u"; "ci"; "--password-stdin"];
         ["manifest"; "inspect"; "reg.example/app:v1"]]) /\
  (exists w',
      docker Scenario.image_absent (docker_build Scenario.image_absent)
             (PushTs.push Scenario.image_absent) Demo.request initial =
        (Ok (mkOutput "app" "v1" "reg.example/app:v1" false), w')).
Proof.
  split.
  - destruct (docker_result Scenario.image_present
                (docker_build Scenario.image_present)
                (PushTs.push Scenario.image_present) Demo.request initial)
      as (_ & Hskip & _).
    destruct (Hskip _ _ _ eq_refl eq_refl eq_refl) as (w' & E & T).
    exists w'. split; [exact E |]. rewrite T. reflexivity.
  - destruct (docker_result Scenario.image_absent
                (docker_build Scenario.image_absent)
                (PushTs.push Scenario.image_absent) Demo.request initial)
      as (_ & _ & Hbuild).
    destruct (Hbuild _ _ _ _ _ eq_refl eq_refl eq_refl eq_refl eq_refl)
      as (w' & E & _).
    exists w'. exact E.
Defined.

Lemma run_rejects_missing_input_witness :
  missing_required Scenario.no_project_path /\
  exists name,
    In name required_names /\
    run_with Scenario.image_absent (docker_build Scenario.image_absent)
             (PushTs.push Scenario.image_absent)
             Scenario.no_project_path initial =
      (Ok tt,
       reported ("❌ Action failed: " ++ name ++ " is required") initial) /\
    trace (snd (run_with Scenario.image_absent
                         (docker_build Scenario.image_absent)
                         (PushTs.push Scenario.image_absent)
                         Scenario.no_project_path initial)) = [].
Proof.
  split.
  - left. reflexivity.
  - apply (run_rejects_missing_input Scenario.image_absent
             (docker_build Scenario.image_absent)
             (PushTs.push Scenario.image_absent)
             Scenario.no_project_path initial).
    left. reflexivity.
Defined.

Lemma pull_failure_is_a_warning_witness :
  existsSync Scenario.no_latest
             (path_resolve Scenario.no_latest "Dockerfile") = true /\
  spawn Scenario.no_latest (trace initial)
        (BuildxTs.pull_latest "reg.example" "app") <> Exited 0 /\
  fst (BuildxTs.build Scenario.no_latest "app" "Dockerfile" "app" "v1"
                      "reg.example" "--no-cache" true initial) = Ok tt /\
  log (snd (BuildxTs.build Scenario.no_latest "app" "Dockerfile" "app" "v1"
                           "reg.example" "--no-cache" true initial)) =
    [Warning "⚠️ Failed to pull reg.example/app:latest: Error: The process '/usr/bin/docker' failed with exit code 1";
     Info "✅ Successfully built: app:v1"].
Proof.
  assert (Hpull : spawn Scenario.no_latest (trace initial)
                        (BuildxTs.pull_latest "reg.example" "app")
                  <> Exited 0) by (simpl; discriminate).
  split; [reflexivity |]. split; [exact Hpull |].
  destruct (pull_failure_is_a_warning Scenario.no_latest "app" "Dockerfile"
              "app" "v1" "reg.example" "--no-cache" initial eq_refl Hpull)
    as (e & He & _ & _ & Hok).
  rewrite (Hok eq_refl). simpl. split; [reflexivity |].
  simpl in He. inversion He. reflexivity.
Defined.

Lemma password_only_on_stdin_witness :
  ~ In "s3cret"
       (command_line_tokens Scenario.image_absent "app" "Dockerfile" "app"
                            "v1" "reg.example" "ci" "") /\
  exists l,
    trace (snd (orchestrate Scenario.image_absent DockerBuild
                            PushVersionAndLatest Demo.request initial)) = l /\
    Forall (fun i => ~ In "s3cret" (argv i)) l.
Proof.
  assert (H : ~ In (registryPassword Demo.request)
                   (command_line_tokens Scenario.image_absent
                      (projectPath Demo.request) (dockerfileName Demo.request)
                      (imageName Demo.request) (version Demo.request)
                      (registryUrl Demo.request)
                      (registryUsername Demo.request) (args Demo.request))).
  { simpl. intuition discriminate. }
  split; [exact H |].
  destruct (password_only_on_stdin Scenario.image_absent DockerBuild
              PushVersionAndLatest Demo.request initial H)
    as (_ & l & T & F).
  exists l. split; [exact T |].
  eapply Forall_impl; [| exact F]. intros i (_ & N & _). exact N.
Defined.

Lemma publisher_never_follows_integrated_push_witness :
  let run :=
    orchestrate Pipeline.fresh_image BuildxBuildPush PushVersionAndLatest
                Demo.request initial in
  fst run =
    Throw "❌ Docker push failed: ❌ Failed to build: TypeError: args.trim is not a function" /\
  map argv (trace (snd run)) =
    [["--version"];
     ["login"; "reg.example"; "-u"; "ci"; "--password-stdin"];
     ["manifest"; "inspect"; "reg.example/app:v1"];
     ["pull"; "/app:latest"]] /\
  Forall (fun i => is_integrated_push i = false) (trace (snd run)) /\
  Forall (fun i => is_publisher_step i = false) (trace (snd run)).
Proof.
  cbv zeta. split; [reflexivity |]. split; [reflexivity |].
  destruct (publisher_never_follows_integrated_push Pipeline.fresh_image
              BuildxBuildPush PushVersionAndLatest Demo.request initial)
    as (l & T & F & N).
  change (trace initial ++ l)%list with l in T. rewrite T.
  split; [exact F | exact (N eq_refl)].
Defined.


Lemma outputs_all_or_nothing_witness :
  (let w' := snd (action Scenario.image_absent DockerBuild
                         PushVersionAndLatest Demo.request initial) in
   outputs w' =
     [("image", "app"); ("tag", "v1"); ("href", "reg.example/app:v1");
      ("skipped", "false")] /\
   files w' =
     map (pair "/tmp/out")
         ["image<<ghadelimiter_0" ++ nl ++ "app" ++ nl ++ "ghadelimiter_0"
            ++ nl;
          "tag<<ghadelimiter_0" ++ nl ++ "v1" ++ nl ++ "ghadelimiter_0"
            ++ nl;
          "href<<ghadelimiter_0" ++ nl ++ "reg.example/app:v1" ++ nl
            ++ "ghadelimiter_0" ++ nl;
          "skipped<<ghadelimiter_0" ++ nl ++ "false" ++ nl
            ++ "ghadelimiter_0" ++ nl;
          "image=app" ++ nl; "tag=v1" ++ nl;
          "href=reg.example/app:v1" ++ nl; "skipped=false" ++ nl] /\
   failures w' = []) /\
  (let w' := snd (action Scenario.output_file_missing DockerBuild
                         PushVersionAndLatest Demo.request initial) in
   outputs w' = [] /\ files w' = [] /\
   failures w' = ["❌ Action failed: Missing file at path: /tmp/out"]) /\
  (let w' := snd (action Scenario.build_fails DockerBuild
                         PushVersionAndLatest Demo.request initial) in
   outputs w' = [] /\ files w' = [] /\
   failures w' =
     ["❌ Action failed: ❌ Docker push failed: ❌ Failed to build: Error: The process '/usr/bin/docker' failed with exit code 2"]) /\
  outputs (snd (action Scenario.image_absent DockerBuild PushVersionAndLatest
                       Scenario.no_project_path initial)) = [].
Proof.
  assert (Hreq : ~ missing_required Demo.request).
  { unfold missing_required. simpl. intuition discriminate. }
  split; [| split; [| split]].
  - destruct (outputs_all_or_nothing Scenario.image_absent DockerBuild
                PushVersionAndLatest Demo.request initial)
      as (_ & _ & _ & Hok).
    exact (Hok _ _ Hreq eq_refl).
  - destruct (outputs_all_or_nothing Scenario.output_file_missing DockerBuild
                PushVersionAndLatest Demo.request initial)
      as (_ & _ & _ & Hok).
    exact (Hok _ _ Hreq eq_refl).
  - destruct (outputs_all_or_nothing Scenario.build_fails DockerBuild
                PushVersionAndLatest Demo.request initial)
      as (_ & _ & Hthrow & _).
    exact (Hthrow _ _ Hreq eq_refl).
  - destruct (outputs_all_or_nothing Scenario.image_absent DockerBuild
                PushVersionAndLatest Scenario.no_project_path initial)
      as (_ & Hmiss & _).
    destruct (Hmiss (or_introl eq_refl)) as (O & _). rewrite O. reflexivity.
Defined.

(** * Further properties of the modules *)

(** ** Engine check, login and the phases of the orchestrator *)

Lemma accepted_iff_zero h i o :
  ignoreReturnCode i = false ->
  exec_rejection h i o = None <-> o = Exited 0.
Proof.
  intros Hi. destruct o as [code | msg]; simpl.
  - rewrite Hi, orb_false_r. destruct (code =? 0)%Z eqn:E.
    + apply Z.eqb_eq in E. subst. tauto.
    + apply Z.eqb_neq in E. split; [discriminate | congruence].
  - split; discriminate.
Qed.

Lemma ensureDockerEngine_run h w :
  ensureDockerEngine h w =
  match exec_rejection h docker_version (spawn h (trace w) docker_version) with
  | None =>
      (Ok tt, logged (Info "✅ Docker engine is available and ready")
                     (spawned docker_version w))
  | Some e =>
      (Throw ("❌ Docker is not available. Please ensure Docker is installed and running. Error: Error: " ++ e),
       spawned docker_version w)
  end.
Proof.
  unfold ensureDockerEngine, try_catch, bind.
  destruct (exec_cases h docker_version w) as [(c & -> & ->) | (e & -> & ->)];
    reflexivity.
Qed.

Lemma registryLogin_run h reg user pw w :
  let login := docker_login reg user pw in
  registryLogin h reg user pw w =
  match exec_rejection h login (spawn h (trace w) login) with
  | None =>
      (Ok tt, logged (Info ("✅ Successfully logged into registry: " ++ reg))
                     (spawned login w))
  | Some e =>
      (Throw ("❌ Failed to login to registry: Error: " ++ e), spawned login w)
  end.
Proof.
  cbv zeta. unfold registryLogin, try_catch, bind.
  destruct (exec_cases h (docker_login reg user pw) w)
    as [(c & -> & ->) | (e & -> & ->)]; reflexivity.
Qed.

(** X1. The engine check spawns one process, [docker --version], and
    nothing else.  It succeeds exactly when that process exits with code
    zero; when the process is rejected, it throws that Docker is not
    available, with the error of the process at the end of the message, and
    logs nothing. *)
Theorem engine_check_outcome h w :
  let result := ensureDockerEngine h w in
  let outcome := spawn h (trace w) docker_version in
  trace (snd result) = (trace w ++ [docker_version])%list /\
  (fst result = Ok tt <-> outcome = Exited 0) /\
  (forall e,
      exec_rejection h docker_version outcome = Some e ->
      result =
        (Throw ("❌ Docker is not available. Please ensure Docker is installed and running. Error: Error: " ++ e),
         spawned docker_version w)).
Proof.
  cbv zeta. rewrite ensureDockerEngine_run.
  pose proof (accepted_iff_zero h docker_version
                (spawn h (trace w) docker_version) eq_refl) as Hz.
  destruct (exec_rejection h docker_version _) as [e |].
  - split; [reflexivity |]. split.
    + split; [discriminate |]. intros E. apply Hz in E. discriminate.
    + intros e' E. now inversion E.
  - split; [reflexivity |]. split.
    + split; [intros _; now apply Hz | reflexivity].
    + discriminate.
Qed.

(** X2. When the engine check fails, the orchestrator stops there, for
    every request and every build and push module: the only process of the
    run is [docker --version] (no login, so the password is handed to no
    process), nothing is logged, and the error is the one of the engine
    check under the prefix of the orchestrator. *)
Theorem engine_failure_stops_the_run h build push inputs w :
  spawn h (trace w) docker_version <> Exited 0 ->
  exists e,
    exec_rejection h docker_version (spawn h (trace w) docker_version)
      = Some e /\
    docker h build push inputs w =
      (Throw ("❌ Docker push failed: ❌ Docker is not available. Please ensure Docker is installed and running. Error: Error: " ++ e),
       spawned docker_version w).
Proof.
  intros Hfail.
  destruct (not_zero_rejected h docker_version _ eq_refl Hfail) as (e & He).
  exists e. split; [exact He |].
  unfold docker, try_catch, bind.
  rewrite ensureDockerEngine_run, He. reflexivity.
Qed.

(** X3. When the engine check succeeds and [docker login] is rejected, the
    orchestrator stops there: the processes of the run are the version
    query and the login, the registry is not probed, nothing is built or
    pushed, and the error is the one of the login under the prefix of the
    orchestrator. *)
Theorem login_failure_stops_the_run h build push inputs w :
  let login :=
    docker_login (registryUrl inputs) (registryUsername inputs)
                 (registryPassword inputs) in
  spawn h (trace w) docker_version = Exited 0 ->
  spawn h (trace w ++ [docker_version]) login <> Exited 0 ->
  exists e w',
    docker h build push inputs w =
      (Throw ("❌ Docker push failed: ❌ Failed to login to registry: Error: "
              ++ e), w') /\
    exec_rejection h login (spawn h (trace w ++ [docker_version]) login)
      = Some e /\
    trace w' = (trace w ++ [docker_version; login])%list /\
    log w' =
      (log w ++ [Info "✅ Docker engine is available and ready"])%list.
Proof.
  intros login Hv Hl.
  destruct (not_zero_rejected h login _ eq_refl Hl) as (e & He).
  exists e. eexists. split; [| split; [exact He |]].
  - unfold docker, try_catch, bind.
    rewrite ensureDockerEngine_run, Hv. cbn [exec_rejection Z.eqb orb].
    rewrite registryLogin_run. cbv zeta. fold login.
    cbn [trace logged spawned]. rewrite He. reflexivity.
  - cbn [trace log logged spawned]. rewrite <- app_assoc. auto.
Qed.

Lemma probe_not_zero h reg im v w :
  let ref := reg ++ "/" ++ im ++ ":" ++ v in
  spawn h (trace w) (manifest_inspect ref) <> Exited 0 ->
  exists diagnostic,
    checkImageExists h reg im v w =
    (Ok false, logged (Info diagnostic) (spawned (manifest_inspect ref) w)).
Proof.
  intros ref Hp. rewrite checkImageExists_run. fold ref.
  destruct (spawn h (trace w) (manifest_inspect ref)) as [code | msg].
  - destruct (code =? 0)%Z eqn:E.
    + apply Z.eqb_eq in E. congruence.
    + eauto.
  - eauto.
Qed.

(** X4. A probe that does not exit with code zero, because the image is
    not in the registry or because the probe itself could not be run, never
    skips the build: the orchestrator goes on with the build step, then the
    push step, and its result is the one of these two steps. *)
Theorem failed_probe_leads_to_build h build push inputs w w1 w2 :
  let ref :=
    registryUrl inputs ++ "/" ++ imageName inputs ++ ":" ++ version inputs in
  ensureDockerEngine h w = (Ok tt, w1) ->
  registryLogin h (registryUrl inputs) (registryUsername inputs)
                (registryPassword inputs) w1 = (Ok tt, w2) ->
  spawn h (trace w2) (manifest_inspect ref) <> Exited 0 ->
  exists diagnostic,
    let w3 := logged (Info diagnostic) (spawned (manifest_inspect ref) w2) in
    docker h build push inputs w =
    match build (projectPath inputs) (dockerfileName inputs)
                (imageName inputs) (version inputs) (args inputs)
                (pullLatest inputs) w3 with
    | (Throw e, w4) => (Throw ("❌ Docker push failed: " ++ e), w4)
    | (Ok _, w4) =>
        match push (registryUrl inputs) (imageName inputs) (version inputs)
                   w4 with
        | (Throw e, w5) => (Throw ("❌ Docker push failed: " ++ e), w5)
        | (Ok _, w5) =>
            (Ok (mkOutput (imageName inputs) (version inputs) ref false),
             logged (Info "✅ Docker push process completed successfully") w5)
        end
    end.
Proof.
  intros ref H1 H2 Hp.
  destruct (probe_not_zero h (registryUrl inputs) (imageName inputs)
              (version inputs) w2 Hp) as (d & E).
  fold ref in E.
  exists d. cbv zeta. unfold docker, try_catch, bind.
  rewrite H1, H2, E.
  destruct (build _ _ _ _ _ _ _) as [[[] | e] w4]; [| reflexivity].
  destruct (push _ _ _ w4) as [[[] | e] w5]; reflexivity.
Qed.







(** ** The processes of a run *)

(** How a returning orchestrator went. *)
Lemma docker_ok_inv h build push inputs w r w' :
  docker h build push inputs w = (Ok r, w') ->
  exists w1 w2 w3,
    ensureDockerEngine h w = (Ok tt, w1) /\
    registryLogin h (registryUrl inputs) (registryUsername inputs)
                  (registryPassword inputs) w1 = (Ok tt, w2) /\
    checkImageExists h (registryUrl inputs) (imageName inputs)
                     (version inputs) w2 = (Ok (skipped r), w3) /\
    (skipped r = true /\ trace w' = trace w3 \/
     skipped r = false /\
     exists w4 w5,
       build (projectPath inputs) (dockerfileName inputs) (imageName inputs)
             (version inputs) (args inputs) (pullLatest inputs) w3
         = (Ok tt, w4) /\
       push (registryUrl inputs) (imageName inputs) (version inputs) w4
         = (Ok tt, w5) /\
       trace w' = trace w5).
Proof.
  unfold docker, try_catch, bind, throw.
  destruct (ensureDockerEngine h w) as [[[] | e0] w1] eqn:E1; [| discriminate].
  destruct (registryLogin h _ _ _ w1) as [[[] | e1] w2] eqn:E2;
    [| discriminate].
  destruct (checkImageExists h _ _ _ w2) as [[[|] | e2] w3] eqn:E3;
    [| | discriminate].
  - intros E. inversion E; subst. cbn [skipped].
    exists w1, w2, w3. split; [reflexivity |]. split; [exact E2 |].
    split; [exact E3 |]. left. auto.
  - destruct (build _ _ _ _ _ _ _) as [[[] | e3] w4] eqn:Eb; [| discriminate].
    destruct (push _ _ _ w4) as [[[] | e4] w5] eqn:Ep; [| discriminate].
    intros E. inversion E; subst. cbn [skipped].
    exists w1, w2, w3. split; [reflexivity |]. split; [exact E2 |].
    split; [exact E3 |].
    right. split; [reflexivity |]. exists w4, w5. auto.
Qed.

Lemma after_pull_trace h reg im w :
  trace (after_pull h reg im w) =
  (trace w ++ [BuildxTs.pull_latest reg im])%list.
Proof.
  unfold after_pull. destruct (exec_rejection h _ _); reflexivity.
Qed.

Lemma builder_ok_trace h b inputs w w' :
  builder_of h b (projectPath inputs) (dockerfileName inputs)
             (imageName inputs) (version inputs) (args inputs)
             (pullLatest inputs) w
    = (Ok tt, w') ->
  b = DockerBuild /\
  trace w' = (trace w ++ [docker_build_process h inputs])%list.
Proof.
  destruct b; simpl; unfold docker_build.
  - rewrite docker_build_run. cbv zeta.
    destruct (existsSync h _); [| discriminate].
    destruct (exec_rejection h _ _); [discriminate |].
    intros E. inversion E. split; reflexivity.
  - intros E. now apply buildx_build_push_throws in E.
Qed.

Lemma attempt_accepted h t steps :
  snd (attempt h t steps) = None -> fst (attempt h t steps) = steps.
Proof.
  intros N.
  destruct (attempt_all_or_first h steps t)
    as [(_ & F & _) | (e & ? & ? & ? & S & _)]; [exact F | congruence].
Qed.

Lemma publisher_ok_trace h p inputs w w' :
  publisher_of h p (registryUrl inputs) (imageName inputs) (version inputs) w
    = (Ok tt, w') ->
  trace w' = (trace w ++ publisher_processes p inputs)%list.
Proof.
  intros E. destruct p; simpl in *.
  - destruct (push_version_run h (registryUrl inputs) (imageName inputs)
                (version inputs) w) as (T & R).
    rewrite E in T, R. cbn [fst snd] in T, R. rewrite T.
    destruct (snd (attempt h (trace w) _)) eqn:S; [discriminate |].
    now rewrite (attempt_accepted _ _ _ S).
  - destruct (push_latest_run h (registryUrl inputs) (imageName inputs)
                (version inputs) w) as (T & R).
    rewrite E in T, R. cbn [fst snd] in T, R. rewrite T.
    destruct (snd (attempt h (trace w) _)) eqn:S; [discriminate |].
    now rewrite (attempt_accepted _ _ _ S).
Qed.

(** X6. The processes of a run that returns a result, in order and with
    no other process between them: the version query, the login and the
    manifest inspection; then, unless the run was skipped, the
    [docker build] of the build step and the tag and push steps of the
    publisher.  A run that was not skipped is a run over the docker-build
    revision: the build step of the buildx revision, called as the
    orchestrator calls it, never returns.  The reference that is probed,
    the one that is pushed and the [href] of the result are the same. *)
Theorem processes_of_a_returning_run h b p inputs w r w' :
  orchestrate h b p inputs w = (Ok r, w') ->
  trace w' =
    (trace w ++ opening_processes inputs ++
       (if skipped r then []
        else docker_build_process h inputs :: publisher_processes p inputs))%list
  /\
  (skipped r = false -> b = DockerBuild) /\
  In (manifest_inspect (href r)) (opening_processes inputs) /\
  (skipped r = false -> In (push_step (href r)) (publisher_processes p inputs)).
Proof.
  unfold orchestrate. intros E.
  destruct (docker_output _ _ _ _ _ _ _ E) as (_ & _ & Hhref).
  destruct (docker_ok_inv _ _ _ _ _ _ _ E)
    as (w1 & w2 & w3 & H1 & H2 & H3 & Hrest).
  apply ensureDockerEngine_trace in H1.
  apply registryLogin_trace in H2. apply checkImageExists_trace in H3.
  assert (T3 : trace w3 = (trace w ++ opening_processes inputs)%list).
  { rewrite H3, H2, H1, <- !app_assoc. reflexivity. }
  split; [| split; [| split]].
  - destruct Hrest as [(-> & ->) | (-> & w4 & w5 & Hb & Hp & ->)].
    + now rewrite T3.
    + apply builder_ok_trace in Hb as (_ & Hb).
      apply publisher_ok_trace in Hp.
      rewrite Hp, Hb, T3, <- !app_assoc. reflexivity.
  - intros S.
    destruct Hrest as [(S' & _) | (_ & w4 & w5 & Hb & _)]; [congruence |].
    now apply builder_ok_trace in Hb.
  - rewrite Hhref. unfold opening_processes. cbn [In]. auto.
  - intros _. rewrite Hhref.
    destruct p; unfold publisher_processes, version_steps;
      cbn [app In]; auto.
Qed.

(** ** Reading and checking the inputs *)

Lemma input_or_env_empty h name variable :
  input_or_env h name variable "" = "" <-> provided h (name, variable) = false.
Proof.
  unfold input_or_env, provided, Js.or_else, Js.opt_or. cbn [fst snd].
  destruct (getInput h name) as [| c s]; cbn [Js.truthy orb].
  - destruct (env_lookup (process_env h) variable) as [[| c s] |];
      cbn [Js.truthy Js.or_else]; split; congruence.
  - split; discriminate.
Qed.

(** A run starts with [docker --version], whatever comes next. *)
Lemma first_process {A B} (m : M A) (k : A -> M B) (wrap : Js.error -> Js.error)
  (i : Invocation) :
  (forall w r w', m w = (r, w') -> trace w' = (trace w ++ [i])%list) ->
  (forall a, spawns (fun _ => True) (k a)) ->
  forall w r w',
    try_catch (bind m k) (fun e => throw (wrap e)) w = (r, w') ->
    exists l, trace w' = (trace w ++ i :: l)%list.
Proof.
  intros Hm Hk w r w'. unfold try_catch, bind, throw.
  destruct (m w) as [[a | e] w1] eqn:Em.
  - apply Hm in Em.
    destruct (k a w1) as [[b | e] w2] eqn:Ek;
      destruct (Hk a _ _ _ Ek) as (l & T & _);
      intros E; inversion E; subst; exists l;
      now rewrite T, Em, <- app_assoc.
  - apply Hm in Em. intros E. inversion E; subst. now exists [].
Qed.

Lemma orchestrate_first_process h b p inputs w r w' :
  orchestrate h b p inputs w = (r, w') ->
  exists l, trace w' = (trace w ++ docker_version :: l)%list.
Proof.
  unfold orchestrate, docker. cbv zeta.
  apply first_process.
  - intros w0 r0 w0'. apply ensureDockerEngine_trace.
  - intros _.
    unfold registryLogin, checkImageExists.
    destruct b, p;
      unfold builder_of, publisher_of, docker_build, buildx_build_push,
        BuildTs.build, PushVersionTs.push, PushTs.push;
      cbv zeta; frame.
Qed.

(** X9. The action starts docker exactly when each of the six required
    inputs is provided, by the action input or, when that is empty, by the
    environment variable [INPUT_...] set to a non-empty string: then the
    first process of the run is [docker --version]; otherwise no process
    is spawned at all.  The Dockerfile name is never empty: it falls back
    to [Dockerfile]. *)
Theorem action_starts_iff_inputs_provided h b p w :
  let w' := snd (action h b p (read_input h) w) in
  ((forall source, In source required_sources -> provided h source = true)
   <-> exists l, trace w' = (trace w ++ docker_version :: l)%list) /\
  ((exists source, In source required_sources /\ provided h source = false)
   <-> trace w' = trace w) /\
  dockerfileName (read_input h) <> "".
Proof.
  cbv zeta.
  assert (Hmiss : missing_required (read_input h) <->
                  exists source, In source required_sources /\
                                 provided h source = false).
  { unfold missing_required, read_input, required_sources.
    cbn [projectPath imageName version registryUrl registryUsername
         registryPassword].
    rewrite !input_or_env_empty. split.
    - intros [H | [H | [H | [H | [H | H]]]]];
        eexists; (split; [| exact H]); cbn [In]; auto 10.
    - intros (source & Hin & H). cbn [In] in Hin.
      destruct Hin as [<- | [<- | [<- | [<- | [<- | [<- | []]]]]]]; auto 10. }
  assert (Hrun : missing_required (read_input h) /\
                 trace (snd (action h b p (read_input h) w)) = trace w \/
                 ~ missing_required (read_input h) /\
                 exists l, trace (snd (action h b p (read_input h) w))
                           = (trace w ++ docker_version :: l)%list).
  { unfold action.
    destruct (require_inputs_run (read_input h) w) as [(N & _) | (N & _)].
    - left. split; [exact N |].
      destruct (run_with_missing h (builder_of h b) (publisher_of h p) _ w N)
        as (name & _ & ->).
      reflexivity.
    - right. split; [exact N |].
      destruct (orchestrate h b p (read_input h) w) as [r w1] eqn:E.
      destruct (orchestrate_first_process _ _ _ _ _ _ _ E) as (l & T).
      exists l. unfold orchestrate in E.
      destruct (run_with_trace _ _ _ _ _ _ _ N E) as (_ & ->). exact T.
  }
  assert (Hgrow : forall (t : list Invocation) i l,
             t = (t ++ i :: l)%list -> False).
  { intros t i l E. apply (f_equal (@length _)) in E.
    rewrite length_app in E. simpl in E. lia. }
  split; [| split].
  - split.
    + intros Hall. destruct Hrun as [(N & _) | (_ & H)]; [| exact H].
      apply Hmiss in N. destruct N as (source & Hin & Hno).
      rewrite (Hall source Hin) in Hno. discriminate.
    + intros (l & T) source Hin.
      destruct (provided h source) eqn:Hp; [reflexivity |].
      destruct Hrun as [(_ & T0) | (N & _)].
      * rewrite T0 in T. now apply Hgrow in T.
      * exfalso. apply N, Hmiss. eauto.
  - split.
    + intros Hno. apply Hmiss in Hno.
      destruct Hrun as [(_ & T0) | (N & _)]; [exact T0 | contradiction].
    + intros T. apply Hmiss.
      destruct Hrun as [(N & _) | (_ & l & T1)]; [exact N |].
      rewrite T in T1. now apply Hgrow in T1.
  - unfold read_input, input_or_env, Js.or_else, Js.opt_or.
    cbn [dockerfileName].
    destruct (getInput h "dockerfile-name") as [| c s]; cbn [Js.truthy];
      [| discriminate].
    destruct (env_lookup (process_env h) "INPUT_DOCKERFILE_NAME")
      as [[| c s] |]; cbn [Js.truthy Js.or_else]; discriminate.
Qed.

Lemma lower_letters c :
  (Js.lower c = "t"%char <-> either_case "t" "T" c) /\
  (Js.lower c = "r"%char <-> either_case "r" "R" c) /\
  (Js.lower c = "u"%char <-> either_case "u" "U" c) /\
  (Js.lower c = "e"%char <-> either_case "e" "E" c).
Proof.
  unfold either_case.
  destruct c as [[] [] [] [] [] [] [] []]; vm_compute;
    repeat split; intros H; try discriminate H; auto;
    destruct H as [H | H]; discriminate H.
Qed.

(** X10. [pull-latest] is read without regard to case: the flag is on
    exactly when the string taken from the input, the environment variable
    or the default is one of the spellings of [true] in upper and lower
    case letters; every other string, [yes] or [1] included, turns the pull
    off.  With neither the input nor the variable given, the flag is
    on. *)
Theorem pull_latest_is_read_without_case h :
  let chosen := input_or_env h "pull-latest" "INPUT_PULL_LATEST" "true" in
  (pullLatest (read_input h) = true <->
   exists a b c d,
     chosen = String a (String b (String c (String d EmptyString))) /\
     either_case "t" "T" a /\ either_case "r" "R" b /\
     either_case "u" "U" c /\ either_case "e" "E" d) /\
  (provided h ("pull-latest", "INPUT_PULL_LATEST") = false ->
   pullLatest (read_input h) = true).
Proof.
  cbv zeta. split.
  - unfold read_input. cbn [pullLatest].
    set (chosen := input_or_env h "pull-latest" "INPUT_PULL_LATEST" "true").
    rewrite String.eqb_eq. split.
    + intros E.
      destruct chosen as [| a [| b [| c [| d [| x s]]]]]; try discriminate E.
      cbn [Js.toLowerCase] in E. injection E as Ha Hb Hc Hd.
      exists a, b, c, d. split; [reflexivity |].
      destruct (lower_letters a) as (Ta & _).
      destruct (lower_letters b) as (_ & Tb & _).
      destruct (lower_letters c) as (_ & _ & Tc & _).
      destruct (lower_letters d) as (_ & _ & _ & Td).
      repeat split; [apply Ta | apply Tb | apply Tc | apply Td]; assumption.
    + intros (a & b & c & d & -> & Ha & Hb & Hc & Hd).
      cbn [Js.toLowerCase].
      destruct (lower_letters a) as (Ta & _).
      destruct (lower_letters b) as (_ & Tb & _).
      destruct (lower_letters c) as (_ & _ & Tc & _).
      destruct (lower_letters d) as (_ & _ & _ & Td).
      apply Ta in Ha. apply Tb in Hb. apply Tc in Hc. apply Td in Hd.
      now rewrite Ha, Hb, Hc, Hd.
  - unfold provided, read_input, input_or_env, Js.or_else, Js.opt_or.
    cbn [pullLatest fst snd].
    destruct (getInput h "pull-latest") as [| c s]; cbn [Js.truthy orb];
      [| discriminate].
    destruct (env_lookup (process_env h) "INPUT_PULL_LATEST")
      as [[| c s] |]; cbn [Js.truthy Js.or_else];
      try discriminate; reflexivity.
Qed.

(** ** The build step *)

(** X11. The docker-build revision of the build step succeeds exactly when
    the Dockerfile exists at the project path joined with its name and
    [docker build] exits with code zero.  It spawns that one process, with
    the image tagged [name:version] and the project path as context, or no
    process at all when the Dockerfile is missing; every error it throws
    starts with [Failed to build]. *)
Theorem docker_build_outcome h pp df im v w :
  let path := path_join h pp df in
  let b := docker_cmd ["build"; "-t"; im ++ ":" ++ v; "-f"; path; pp] in
  let result := BuildTs.build h pp df im v w in
  (fst result = Ok tt <->
   existsSync h path = true /\ spawn h (trace w) b = Exited 0) /\
  trace (snd result) =
    (trace w ++ if existsSync h path then [b] else [])%list /\
  (forall e, fst result = Throw e ->
             exists x, e = "❌ Failed to build: Error: " ++ x).
Proof.
  cbv zeta. rewrite docker_build_run. cbv zeta.
  set (path := path_join h pp df).
  set (b := docker_cmd ["build"; "-t"; im ++ ":" ++ v; "-f"; path; pp]).
  pose proof (accepted_iff_zero h b (spawn h (trace w) b) eq_refl) as Hz.
  destruct (existsSync h path).
  - destruct (exec_rejection h b _) as [e |] eqn:R; cbn [fst snd].
    + split; [| split].
      * split; [discriminate |]. intros (_ & Z). apply Hz in Z. discriminate.
      * reflexivity.
      * intros e' E. exists e. congruence.
    + split; [| split].
      * split; [intros _; split; [reflexivity | now apply Hz] | reflexivity].
      * reflexivity.
      * discriminate.
  - cbn [fst snd]. split; [| split].
    + split; [discriminate | intros (F & _); discriminate].
    + now rewrite app_nil_r.
    + intros e E. eexists. injection E as <-. reflexivity.
Qed.

(** X12. In the buildx revision, with the Dockerfile in place, the pull
    of [latest] is spawned only when [pullLatest] is set, the
    [docker buildx build] process is always spawned after it, and the
    build step succeeds exactly when that build process exits with code
    zero: the outcome of the pull plays no part. *)
Theorem buildx_outcome h pp df im v reg a (pl : bool) w :
  let pull := BuildxTs.pull_latest reg im in
  let b :=
    BuildxTs.buildx_build h reg (im ++ ":" ++ v) (path_resolve h df) pp a in
  let before := (trace w ++ if pl then [pull] else [])%list in
  let result := BuildxTs.build h pp df im v reg a pl w in
  existsSync h (path_resolve h df) = true ->
  trace (snd result) = (before ++ [b])%list /\
  (fst result = Ok tt <-> spawn h before b = Exited 0).
Proof.
  intros pull b before result Hfile. subst result.
  rewrite buildx_run. cbv zeta. rewrite Hfile. fold b.
  assert (T : trace (if pl then after_pull h reg im w else w) = before).
  { subst before. destruct pl; [apply after_pull_trace |].
    now rewrite app_nil_r. }
  rewrite T.
  pose proof (accepted_iff_zero h b (spawn h before b) eq_refl) as Hz.
  destruct (exec_rejection h b _) as [e |]; cbn [fst snd trace logged spawned];
    rewrite T; (split; [reflexivity |]).
  - split; [discriminate |]. intros Z. apply Hz in Z. discriminate.
  - split; [intros _; now apply Hz | reflexivity].
Qed.

Lemma defined_entries_spec vars k v :
  In (k, v) (defined_entries vars) <-> In (k, Some v) vars.
Proof.
  induction vars as [| [k' [v' |]] rest IH]; simpl.
  - tauto.
  - rewrite IH. split; intros [E | H]; auto; left; congruence.
  - rewrite IH. split; [auto |]. intros [E | H]; [discriminate | exact H].
Qed.

(** X13. The environment handed to [docker buildx build] is the
    environment of the action without its undefined entries: a variable is
    passed with value [v] exactly when [process.env] binds it to [v], in
    the same order; nothing is added and no value is changed. *)
Theorem build_environment h reg fullImageName path pp a :
  exists passed,
    env (BuildxTs.buildx_build h reg fullImageName path pp a) = Some passed /\
    (forall k v, In (k, v) passed <-> In (k, Some v) (process_env h)) /\
    map (fun kv => (fst kv, Some (snd kv))) passed =
      filter (fun kv => match snd kv with Some _ => true | None => false end)
             (process_env h).
Proof.
  exists (defined_entries (process_env h)).
  split; [reflexivity |]. split; [intros k v; apply defined_entries_spec |].
  induction (process_env h) as [| [k [v |]] rest IH]; simpl;
    [reflexivity | now rewrite IH | exact IH].
Qed.

(** ** The publisher that pushes the versioned reference only *)

(** The rejected step of a sequence comes after steps that were all
    accepted. *)
Lemma attempt_first_rejection h steps : forall t e,
  snd (attempt h t steps) = Some e ->
  exists before i after,
    steps = (before ++ i :: after)%list /\
    fst (attempt h t steps) = (before ++ [i])%list /\
    exec_rejection h i (spawn h (t ++ before) i) = Some e /\
    forall b1 j b2,
      before = (b1 ++ j :: b2)%list ->
      exec_rejection h j (spawn h (t ++ b1) j) = None.
Proof.
  induction steps as [| i rest IH]; intros t e; simpl; [discriminate |].
  destruct (exec_rejection h i (spawn h t i)) as [e0 |] eqn:E.
  - intros [= ->]. exists [], i, rest. rewrite app_nil_r.
    repeat split; auto. intros [| ? ?] ? ? D; discriminate.
  - specialize (IH (t ++ [i])%list e).
    destruct (attempt h (t ++ [i]) rest) as [l r]. cbn [fst snd] in *.
    intros R. destruct (IH R) as (before & j & after & -> & -> & X & A).
    exists (i :: before), j, after. rewrite <- app_assoc in X.
    repeat split; auto.
    intros [| k b1] j0 b2 D; simpl in D; inversion D; subst.
    + now rewrite app_nil_r.
    + specialize (A b1 j0 b2 eq_refl). now rewrite <- app_assoc in A.
Qed.

(** X14. The revision of [push] without [latest] tags the local image
    [name:version] as [registry/name:version] and pushes that reference, in
    this order.  It succeeds only when both steps do.  Otherwise it stops
    at the first step that is rejected: the steps before that one were
    accepted, the steps after it are not attempted (when the tag is
    rejected the push is not attempted), and the error names the versioned
    reference and carries the error of the rejected step. *)
Theorem push_version_outcome h reg im v w :
  let steps := version_steps reg im v in
  let result := PushVersionTs.push h reg im v w in
  (fst result = Ok tt /\
   trace (snd result) = (trace w ++ steps)%list /\
   forall before i after,
     steps = (before ++ i :: after)%list ->
     exec_rejection h i (spawn h (trace w ++ before) i) = None)
  \/
  (exists e before i after,
      steps = (before ++ i :: after)%list /\
      (forall accepted j rest,
          before = (accepted ++ j :: rest)%list ->
          exec_rejection h j (spawn h (trace w ++ accepted) j) = None) /\
      exec_rejection h i (spawn h (trace w ++ before) i) = Some e /\
      trace (snd result) = (trace w ++ before ++ [i])%list /\
      fst result = Throw (push_failure reg im v e)).
Proof.
  intros steps result.
  destruct (push_version_run h reg im v w) as (T & R). fold steps in T, R.
  fold result in T, R. cbv zeta in T, R.
  destruct (snd (attempt h (trace w) steps)) as [e |] eqn:S.
  - right.
    destruct (attempt_first_rejection h steps (trace w) e S)
      as (before & i & after & D & F & X & A).
    exists e, before, i, after. rewrite F in T. auto.
  - left.
    destruct (attempt_all_or_first h steps (trace w))
      as [(_ & F & A) | (e & before & i & after & S' & _)];
      [| congruence].
    rewrite F in T. auto.
Qed.

(** ** The registry login *)

(** X15. The login spawns one process, [docker login registry -u user
    --password-stdin], silently and with the password as its standard
    input.  It succeeds exactly when that process exits with code zero and
    then logs the registry; when the process is rejected it throws
    [Failed to login to registry] followed by the error of the process:
    the login itself puts neither the user name nor the password in the
    message. *)
Theorem login_outcome h reg user pw w :
  let login := docker_login reg user pw in
  let result := registryLogin h reg user pw w in
  let outcome := spawn h (trace w) login in
  trace (snd result) = (trace w ++ [login])%list /\
  input login = Some pw /\ silent login = true /\
  (fst result = Ok tt <-> outcome = Exited 0) /\
  (forall e,
      exec_rejection h login outcome = Some e ->
      result =
        (Throw ("❌ Failed to login to registry: Error: " ++ e),
         spawned login w)).
Proof.
  cbv zeta. rewrite registryLogin_run. cbv zeta.
  pose proof (accepted_iff_zero h (docker_login reg user pw)
                (spawn h (trace w) (docker_login reg user pw)) eq_refl) as Hz.
  destruct (exec_rejection h (docker_login reg user pw) _) as [e |].
  - split; [reflexivity |]. do 2 (split; [reflexivity |]). split.
    + split; [discriminate |]. intros E. apply Hz in E. discriminate.
    + intros e' E. now inversion E.
  - split; [reflexivity |]. do 2 (split; [reflexivity |]). split.
    + split; [intros _; now apply Hz | reflexivity].
    + discriminate.
Qed.

(** * The further properties at concrete requests *)

Lemma engine_failure_stops_the_run_witness :
  spawn Cases.no_engine (trace initial) docker_version <> Exited 0 /\
  docker Cases.no_engine (docker_build Cases.no_engine)
         (PushTs.push Cases.no_engine) Demo.request initial =
    (Throw "❌ Docker push failed: ❌ Docker is not available. Please ensure Docker is installed and running. Error: Error: spawn docker ENOENT",
     spawned docker_version initial).
Proof.
  assert (H : spawn Cases.no_engine (trace initial) docker_version
              <> Exited 0) by (simpl; discriminate).
  split; [exact H |].
  destruct (engine_failure_stops_the_run Cases.no_engine
              (docker_build Cases.no_engine) (PushTs.push Cases.no_engine)
              Demo.request initial H) as (e & He & E).
  simpl in He. inversion He; subst. exact E.
Defined.

Lemma login_failure_stops_the_run_witness :
  exists w',
    docker Cases.login_refused (docker_build Cases.login_refused)
           (PushTs.push Cases.login_refused) Demo.request initial =
      (Throw "❌ Docker push failed: ❌ Failed to login to registry: Error: The process '/usr/bin/docker' failed with exit code 1",
       w') /\
    map argv (trace w') =
      [["--version"];
       ["login"; "reg.example"; "-u"; "ci"; "--password-stdin"]].
Proof.
  assert (H : spawn Cases.login_refused (trace initial ++ [docker_version])
                    (docker_login (registryUrl Demo.request)
                                  (registryUsername Demo.request)
                                  (registryPassword Demo.request))
              <> Exited 0) by (simpl; discriminate).
  destruct (login_failure_stops_the_run Cases.login_refused
              (docker_build Cases.login_refused)
              (PushTs.push Cases.login_refused) Demo.request initial
              eq_refl H) as (e & w' & E & He & T & _).
  simpl in He. inversion He; subst.
  exists w'. split; [exact E |]. rewrite T. reflexivity.
Defined.

Lemma failed_probe_leads_to_build_witness :
  exists w',
    docker Cases.probe_broken (docker_build Cases.probe_broken)
           (PushTs.push Cases.probe_broken) Demo.request initial =
      (Throw "❌ Docker push failed: ❌ Failed to build: Error: The process '/usr/bin/docker' failed with exit code 2",
       w') /\
    map argv (trace w') =
      [["--version"];
       ["login"; "reg.example"; "-u"; "ci"; "--password-stdin"];
       ["manifest"; "inspect"; "reg.example/app:v1"];
       ["build"; "-t"; "app:v1"; "-f"; "app/Dockerfile"; "app"]].
Proof.
  assert (H : spawn Cases.probe_broken
                (trace (logged (Info "✅ Successfully logged into registry: reg.example")
                          (spawned (docker_login "reg.example" "ci" "s3cret")
                             (logged (Info "✅ Docker engine is available and ready")
                                (spawned docker_version initial)))))
                (manifest_inspect "reg.example/app:v1") <> Exited 0)
    by (simpl; discriminate).
  destruct (failed_probe_leads_to_build Cases.probe_broken
              (docker_build Cases.probe_broken)
              (PushTs.push Cases.probe_broken) Demo.request initial
              _ _ eq_refl eq_refl H) as (d & E).
  cbv zeta in E. simpl in E.
  eexists. split; [exact E | reflexivity].
Defined.


Lemma processes_of_a_returning_run_witness :
  exists r w',
    orchestrate Scenario.image_absent DockerBuild PushVersion
                Demo.request initial = (Ok r, w') /\
    href r = "reg.example/app:v1" /\
    map argv (trace w') =
      [["--version"];
       ["login"; "reg.example"; "-u"; "ci"; "--password-stdin"];
       ["manifest"; "inspect"; "reg.example/app:v1"];
       ["build"; "-t"; "app:v1"; "-f"; "app/Dockerfile"; "app"];
       ["tag"; "app:v1"; "reg.example/app:v1"];
       ["push"; "reg.example/app:v1"]].
Proof.
  destruct (orchestrate Scenario.image_absent DockerBuild PushVersion
              Demo.request initial) as [[r | e] w'] eqn:E;
    [| discriminate E].
  destruct (processes_of_a_returning_run _ _ _ _ _ _ _ E) as (T & _ & _).
  exists r, w'. split; [reflexivity |].
  vm_compute in E. injection E as <- _.
  split; [reflexivity |]. rewrite T. reflexivity.
Defined.

Lemma buildx_outcome_witness :
  existsSync Scenario.no_latest
             (path_resolve Scenario.no_latest "Dockerfile") = true /\
  map argv (trace (snd (BuildxTs.build Scenario.no_latest "app" "Dockerfile"
                          "app" "v1" "reg.example" "--no-cache" false
                          initial))) =
    [["buildx"; "build"; "-t"; "reg.example/app:v1"; "-f";
      "/github/workspace/Dockerfile"; "app"; "--no-cache"; "--push"]] /\
  fst (BuildxTs.build Scenario.no_latest "app" "Dockerfile" "app" "v1"
                      "reg.example" "--no-cache" true initial) = Ok tt.
Proof.
  split; [reflexivity |].
  destruct (buildx_outcome Scenario.no_latest "app" "Dockerfile" "app" "v1"
              "reg.example" "--no-cache" false initial eq_refl) as (T & _).
  destruct (buildx_outcome Scenario.no_latest "app" "Dockerfile" "app" "v1"
              "reg.example" "--no-cache" true initial eq_refl) as (_ & R).
  split; [rewrite T; reflexivity | apply R; reflexivity].
Defined.

Lemma tokens_of_args_witness :
  Js.trim " --build-arg A=1　--no-cache " <> "" /\
  Js.split_ws (Js.trim " --build-arg A=1　--no-cache ") =
    ["--build-arg"; "A=1"; "--no-cache"] /\
  Forall (fun t => t <> "")
         (Js.split_ws (Js.trim " --build-arg A=1　--no-cache ")).
Proof.
  assert (H : Js.trim " --build-arg A=1　--no-cache " <> "")
    by (vm_compute; discriminate).
  split; [exact H |]. split; [reflexivity |].
  destruct (tokens_of_args " --build-arg A=1　--no-cache ") as (_ & _ & N).
  exact (N H).
Defined.

Lemma buildx_preflight_witness :
  existsSync Workspace.project_only
             (path_resolve Workspace.project_only "Dockerfile") = false /\
  BuildxTs.build Workspace.project_only "app" "Dockerfile" "app" "v1"
                 "reg.example" "" true initial =
    (Throw "❌ Failed to build: Error: ❌ Dockerfile not found at: /github/workspace/Dockerfile",
     initial).
Proof.
  split; [reflexivity |].
  exact (buildx_preflight Workspace.project_only "app" "Dockerfile" "app"
           "v1" "reg.example" "" true initial eq_refl).
Defined.

Lemma action_starts_iff_inputs_provided_witness :
  (forall source, In source required_sources ->
                  provided Cases.from_environment source = true) /\
  (exists l,
      trace (snd (action Cases.from_environment DockerBuild PushVersion
                         (read_input Cases.from_environment) initial)) =
      docker_version :: l) /\
  trace (snd (action Scenario.image_absent DockerBuild PushVersion
                     (read_input Scenario.image_absent) initial)) = [].
Proof.
  assert (Hall : forall source, In source required_sources ->
                   provided Cases.from_environment source = true).
  { intros source Hin. cbn [required_sources In] in Hin.
    destruct Hin as [<- | [<- | [<- | [<- | [<- | [<- | []]]]]]];
      reflexivity. }
  split; [exact Hall |]. split.
  - destruct (action_starts_iff_inputs_provided Cases.from_environment
                DockerBuild PushVersion initial) as ((Hstart & _) & _).
    exact (Hstart Hall).
  - destruct (action_starts_iff_inputs_provided Scenario.image_absent
                DockerBuild PushVersion initial) as (_ & (Hnone & _) & _).
    apply Hnone. exists ("project-path", "INPUT_PROJECT_PATH").
    split; [left; reflexivity | reflexivity].
Defined.

Lemma pull_latest_is_read_without_case_witness :
  input_or_env Cases.from_environment "pull-latest" "INPUT_PULL_LATEST" "true"
    = "TRUE" /\
  pullLatest (read_input Cases.from_environment) = true /\
  pullLatest (read_input Scenario.image_absent) = true.
Proof.
  split; [reflexivity |]. split.
  - destruct (pull_latest_is_read_without_case Cases.from_environment)
      as ((_ & Hon) & _).
    apply Hon. exists "T"%char, "R"%char, "U"%char, "E"%char.
    unfold either_case. repeat split; auto.
  - destruct (pull_latest_is_read_without_case Scenario.image_absent)
      as (_ & Hdefault).
    apply Hdefault. reflexivity.
Defined.
